(** * sabb: scope downloader for HackerOne programs (main.go)

    A shallow embedding of [main.go]: the credential normaliser
    [sanitizeKey], the HTTP requester [doRequest] with its retry wrapper
    [doRequestWithRetry], the guarded decoder [safeUnmarshal], and the
    HackerOne fetcher ([fetchEligibleAssets], [Fetch]).

    Go strings are byte sequences: they are [string] here (one [ascii]
    per byte), and the functions of packages [strings], [unicode] and
    [unicode/utf8] that [main.go] calls are written out over them.  Go's
    [int] is a 64-bit signed integer: it is a [Z] with the wrap-around
    written out ([wrapInt]).  Everything the program does to the outside
    world (HTTP round trips, back-off sleeps, lines printed to the sink,
    to stdout and to the log) is recorded, in order, in a trace of events
    that every effectful function threads through. *)

From Stdlib Require Import ZArith String Ascii List Bool Lia DecimalString.
Import ListNotations.

Local Open Scope string_scope.
Local Open Scope Z_scope.

(** ** Go's built-in types and the library functions the program calls *)

(** [int] on a 64-bit platform. *)
Definition wrapInt (z : Z) : Z := (z + 2 ^ 63) mod 2 ^ 64 - 2 ^ 63.

(** [fmt.Sprintf("%d", n)]. *)
Definition itoa (n : Z) : string := NilZero.string_of_int (Z.to_int n).

(** The line feed that [fmt.Fprintln] and the ["\n"] of a format append. *)
Definition newline : string := String (ascii_of_nat 10) EmptyString.

(** [strings.HasPrefix(s, p)]. *)
Definition HasPrefix (s p : string) : bool := String.prefix p s.

(** [strings.Contains(s, substr)]: [substr] occurs at some byte offset. *)
Fixpoint Contains (s substr : string) : bool :=
  if HasPrefix s substr then true
  else match s with
       | EmptyString => false
       | String _ t => Contains t substr
       end.

(** [strings.Index(s, sep)] for a one-byte [sep], returning the two
    slices [s[:m]] and [s[m+1:]] around the first occurrence. *)
Fixpoint cutByte (s : string) (sep : ascii) : option (string * string) :=
  match s with
  | EmptyString => None
  | String c t =>
      if Ascii.eqb c sep then Some (EmptyString, t)
      else match cutByte t sep with
           | Some (a, b) => Some (String c a, b)
           | None => None
           end
  end.

(** [strings.SplitN(s, sep, 2)] for a one-byte [sep]: the whole string
    when [sep] is absent, else the text before and after its first
    occurrence. *)
Definition SplitN2 (s : string) (sep : ascii) : list string :=
  match cutByte s sep with
  | None => [s]
  | Some (a, b) => [a; b]
  end.

(** [s[n:]] and [s[:n]]. *)
Fixpoint skip (n : nat) (s : string) : string :=
  match n, s with
  | O, _ => s
  | S n', String _ t => skip n' t
  | S _, EmptyString => EmptyString
  end.

Fixpoint take (n : nat) (s : string) : string :=
  match n, s with
  | O, _ => EmptyString
  | S n', String c t => String c (take n' t)
  | S _, EmptyString => EmptyString
  end.

(** The value of a byte, and the conversion [byte(x)], which keeps the
    low eight bits. *)
Definition byteVal (c : ascii) : Z := Z.of_N (N_of_ascii c).
Definition byte (z : Z) : ascii := ascii_of_N (Z.to_N (z mod 256)).

(** ** unicode/utf8 and strings.Map *)

Definition rune : Type := Z.

Definition RuneError : rune := 0xFFFD.
Definition RuneSelf : rune := 0x80.
Definition MaxRune : rune := 0x10FFFF.
Definition surrogateMin : rune := 0xD800.
Definition surrogateMax : rune := 0xDFFF.

(** The table [first] of package utf8 with the [acceptRanges] entry each
    lead byte selects: the length of the sequence and the range its
    second byte must lie in.  [None] is the entry [xx], an invalid lead
    byte. *)
Definition first (s0 : Z) : option (nat * (Z * Z)) :=
  if s0 <? 0x80 then Some (1%nat, (0, 0))
  else if s0 <? 0xC2 then None
  else if s0 <? 0xE0 then Some (2%nat, (0x80, 0xBF))
  else if s0 =? 0xE0 then Some (3%nat, (0xA0, 0xBF))
  else if s0 =? 0xED then Some (3%nat, (0x80, 0x9F))
  else if s0 <? 0xF0 then Some (3%nat, (0x80, 0xBF))
  else if s0 =? 0xF0 then Some (4%nat, (0x90, 0xBF))
  else if s0 <? 0xF4 then Some (4%nat, (0x80, 0xBF))
  else if s0 =? 0xF4 then Some (4%nat, (0x80, 0x8F))
  else None.

Definition continuation (b : Z) : bool := (0x80 <=? b) && (b <=? 0xBF).

(** [utf8.DecodeRuneInString]: the first rune of [s] and its width in
    bytes; [(RuneError, 1)] for an invalid or truncated encoding. *)
Definition DecodeRuneInString (s : string) : rune * nat :=
  match s with
  | EmptyString => (RuneError, 0%nat)
  | String c0 t0 =>
      let s0 := byteVal c0 in
      match first s0 with
      | None => (RuneError, 1%nat)
      | Some (1%nat, _) => (s0, 1%nat)
      | Some (sz, (lo, hi)) =>
          (* a string shorter than [sz] ends in one of the [EmptyString]
             cases below: Go's test [n < sz] *)
          match t0 with
          | EmptyString => (RuneError, 1%nat)
          | String c1 t1 =>
              let s1 := byteVal c1 in
              if (s1 <? lo) || (hi <? s1) then (RuneError, 1%nat)
              else if (sz <=? 2)%nat then
                (Z.lor (Z.shiftl (Z.land s0 0x1F) 6) (Z.land s1 0x3F), 2%nat)
              else
                match t1 with
                | EmptyString => (RuneError, 1%nat)
                | String c2 t2 =>
                    let s2 := byteVal c2 in
                    if negb (continuation s2) then (RuneError, 1%nat)
                    else if (sz <=? 3)%nat then
                      (Z.lor (Z.lor (Z.shiftl (Z.land s0 0x0F) 12)
                                    (Z.shiftl (Z.land s1 0x3F) 6))
                             (Z.land s2 0x3F), 3%nat)
                    else
                      match t2 with
                      | EmptyString => (RuneError, 1%nat)
                      | String c3 t3 =>
                          let s3 := byteVal c3 in
                          if negb (continuation s3) then (RuneError, 1%nat)
                          else
                            (Z.lor (Z.lor (Z.lor (Z.shiftl (Z.land s0 0x07) 18)
                                                 (Z.shiftl (Z.land s1 0x3F) 12))
                                          (Z.shiftl (Z.land s2 0x3F) 6))
                                   (Z.land s3 0x3F), 4%nat)
                      end
                end
          end
      end
  end.

(** [utf8.RuneLen]. *)
Definition RuneLen (r : rune) : Z :=
  if r <? 0 then -1
  else if r <=? 0x7F then 1
  else if r <=? 0x7FF then 2
  else if (surrogateMin <=? r) && (r <=? surrogateMax) then -1
  else if r <=? 0xFFFF then 3
  else if r <=? MaxRune then 4
  else -1.

(** [utf8.AppendRune], which [strings.Builder.WriteRune] calls; [i] is
    [uint32(r)]. *)
Definition AppendRune (r : rune) : string :=
  let i := r mod 2 ^ 32 in
  let three (r : rune) :=
    String (byte (Z.lor 0xE0 (Z.shiftr r 12)))
      (String (byte (Z.lor 0x80 (Z.land (Z.shiftr r 6) 0x3F)))
         (String (byte (Z.lor 0x80 (Z.land r 0x3F))) EmptyString)) in
  if i <=? 0x7F then String (byte r) EmptyString
  else if i <=? 0x7FF then
    String (byte (Z.lor 0xC0 (Z.shiftr r 6)))
      (String (byte (Z.lor 0x80 (Z.land r 0x3F))) EmptyString)
  else if (MaxRune <? i) || ((surrogateMin <=? i) && (i <=? surrogateMax)) then
    three RuneError
  else if i <=? 0xFFFF then three r
  else
    String (byte (Z.lor 0xF0 (Z.shiftr r 18)))
      (String (byte (Z.lor 0x80 (Z.land (Z.shiftr r 12) 0x3F)))
         (String (byte (Z.lor 0x80 (Z.land (Z.shiftr r 6) 0x3F)))
            (String (byte (Z.lor 0x80 (Z.land r 0x3F))) EmptyString))).

(** The runes [for _, c := range s] yields, each with the number of
    bytes it took; an invalid byte yields [(RuneError, 1)].  Every step
    takes one byte at least, so that [String.length s] steps reach the
    end of [s]. *)
Fixpoint rangeFrom (fuel : nat) (s : string) : list (rune * nat) :=
  match fuel, s with
  | O, _ | _, EmptyString => []
  | S fuel', _ =>
      let (c, w) := DecodeRuneInString s in
      (c, w) :: rangeFrom fuel' (skip w s)
  end.

Definition rangeString (s : string) : list (rune * nat) :=
  rangeFrom (String.length s) s.

Definition runes (s : string) : list rune := map fst (rangeString s).

(** The first loop of [strings.Map]: it runs over [s] until a rune
    changes under [mapping] or an invalid byte is met.  [None]: the loop
    ran to its end and the builder was never grown; [Some (b, rest)]:
    the builder after [b.WriteString(s[:i])] and the write of the mapped
    rune, and the rest [s[i+width:]] left for the second loop. *)
Fixpoint mapFirst (fuel : nat) (mapping : rune -> rune) (s : string)
  : option (string * string) :=
  match fuel, s with
  | O, _ | _, EmptyString => None
  | S fuel', _ =>
      let (c, w) := DecodeRuneInString s in
      let r := mapping c in
      let continue :=
        match mapFirst fuel' mapping (skip w s) with
        | None => None
        | Some (b, rest) => Some (take w s ++ b, rest)
        end in
      if (r =? c) && negb (c =? RuneError) then continue
      else
        let width := if c =? RuneError then Z.of_nat w else RuneLen c in
        if (c =? RuneError) && negb (width =? 1) && (r =? c) then continue
        else
          Some (if 0 <=? r then AppendRune r else EmptyString,
                skip (Z.to_nat width) s)
  end.

(** The second loop of [strings.Map]. *)
Fixpoint mapRest (fuel : nat) (mapping : rune -> rune) (s : string) : string :=
  match fuel, s with
  | O, _ | _, EmptyString => EmptyString
  | S fuel', _ =>
      let (c, w) := DecodeRuneInString s in
      let r := mapping c in
      (if 0 <=? r then
         if r <? RuneSelf then String (byte r) EmptyString else AppendRune r
       else EmptyString)
      ++ mapRest fuel' mapping (skip w s)
  end.

(** [strings.Map]. *)
Definition Map (mapping : rune -> rune) (s : string) : string :=
  match mapFirst (String.length s) mapping s with
  | None => s
  | Some (b, rest) => b ++ mapRest (String.length rest) mapping rest
  end.

(** [unicode.IsSpace]: the Latin-1 cases of its [switch] when
    [uint32(r) <= MaxLatin1], else the ranges of the table
    [unicode.White_Space] above Latin-1. *)
Definition IsSpace (r : rune) : bool :=
  if r mod 2 ^ 32 <=? 0xFF then
    ((0x09 <=? r) && (r <=? 0x0D)) || (r =? 0x20) || (r =? 0x85) || (r =? 0xA0)
  else
    (r =? 0x1680) || ((0x2000 <=? r) && (r <=? 0x200A))
    || (r =? 0x2028) || (r =? 0x2029) || (r =? 0x202F) || (r =? 0x205F)
    || (r =? 0x3000).

(** [utf8.ValidRune]: a Unicode scalar value. *)
Definition ValidRune (r : rune) : bool :=
  ((0 <=? r) && (r <? surrogateMin)) || ((surrogateMax <? r) && (r <=? MaxRune)).

(** [utf8.ValidString]: no step of the [range] loop met an invalid
    byte. *)
Definition ValidString (s : string) : bool :=
  forallb (fun cw => negb ((fst cw =? RuneError) && (snd cw =? 1)%nat))
          (rangeString s).

(** [strings.Map] read rune by rune.  What it writes for the rune [c]:
    nothing when the mapped rune is negative, else its encoding. *)
Definition writeMapped (mapping : rune -> rune) (c : rune) : string :=
  let r := mapping c in if 0 <=? r then AppendRune r else EmptyString.

Definition joinAll (l : list string) : string :=
  fold_right append EmptyString l.

(** Go's [error] values.  The program observes an error only through
    [Error()]; [fmt.Errorf] with a trailing [%w] keeps the wrapped
    error. *)
Inductive error : Type :=
| errorsNew (msg : string)
| wrapError (prefix : string) (err : error).

Fixpoint Error (e : error) : string :=
  match e with
  | errorsNew msg => msg
  | wrapError p e' => p ++ Error e'
  end.

(** ** The outside world *)

Record Request : Type := mkRequest {
  Method : string;
  URL : string;
  Header : list (string * string)
}.

(** [resp.StatusCode]; [resp.Status], the status line as the server
    sent it (code and reason phrase, "404 Not Found"); and what
    [io.ReadAll(resp.Body)] gives. *)
Record Response : Type := mkResponse {
  StatusCode : Z;
  Status : string;
  Body : string + error
}.

Inductive Event : Type :=
| EvRequest (req : Request)      (* client.Do(req) *)
| EvSleep (delay : Z)            (* <-time.After(delay) fired; nanoseconds *)
| EvWrite (bytes : string)       (* written to the sink [out] *)
| EvPrint (bytes : string)       (* written to stdout *)
| EvLog (line : string).         (* log.Printf *)

Definition World : Type := list Event.

Definition requests (w : World) : list Request :=
  flat_map (fun ev => match ev with EvRequest r => [r] | _ => [] end) w.

Definition sleeps (w : World) : list Z :=
  flat_map (fun ev => match ev with EvSleep d => [d] | _ => [] end) w.

Definition written (w : World) : list string :=
  flat_map (fun ev => match ev with EvWrite b => [b] | _ => [] end) w.

(** What [recover()] hands back: the panic value is an [error] or
    something else. *)
Inductive panicValue : Type :=
| panicError (e : error)
| panicOther.

(** The three ways a call [json.Unmarshal(data, &v)] can end, with the
    state of the target [v] (zero-valued before the call) in the two
    cases where the caller goes on to read it. *)
Inductive UnmarshalResult (T : Type) : Type :=
| UnmarshalOk (v : T)
| UnmarshalErr (e : error)
| UnmarshalPanic (r : panicValue) (v : T).

Arguments UnmarshalOk {T} v.
Arguments UnmarshalErr {T} e.
Arguments UnmarshalPanic {T} r v.

Module hackerOneProgramsPage.
Record attributes : Type := mkAttributes {
  Handle : string;
  OffersBounties : bool
}.
Record row : Type := mkRow { Attributes : attributes }.
Record t : Type := mk { Data : list row }.
End hackerOneProgramsPage.

Module hackerOneScopePage.
Record attributes : Type := mkAttributes {
  EligibleForBounty : bool;
  AssetIdentifier : string
}.
Record row : Type := mkRow { Attributes : attributes }.
Record t : Type := mk { Data : list row }.
End hackerOneScopePage.

(** The collaborators of the program that live outside [main.go].  Each
    answer may depend on everything that happened before (the trace). *)
Record Env : Type := mkEnv {
  (* the error of [http.NewRequestWithContext] for this URL, if any *)
  newRequestErr : string -> option error;
  (* [client.Do(req)] *)
  clientDo : World -> Request -> error + Response;
  (* [ctx.Err()] when [ctx.Done()] is polled without blocking *)
  ctxErr : World -> option error;
  (* [ctx.Err()] when [ctx.Done()] fires before a timer of this delay *)
  ctxDoneWithin : World -> Z -> option error;
  (* [json.Unmarshal] into each of the two page types *)
  jsonUnmarshalPrograms : string -> UnmarshalResult hackerOneProgramsPage.t;
  jsonUnmarshalScope : string -> UnmarshalResult hackerOneScopePage.t;
  (* [base64.StdEncoding.EncodeToString] *)
  base64Encode : string -> string
}.

(** ** A state monad over the trace *)

Definition M (A : Type) : Type := World -> A * World.

Definition ret {A} (a : A) : M A := fun w => (a, w).

Definition bind {A B} (m : M A) (k : A -> M B) : M B :=
  fun w => let (a, w') := m w in k a w'.

Definition emit (ev : Event) : M unit := fun w => (tt, (w ++ [ev])%list).

Definition ask {A} (f : World -> A) : M A := fun w => (f w, w).

Declare Scope go_scope.
Delimit Scope go_scope with go.
Notation "x <- m ;; k" := (bind m (fun x => k))
  (at level 100, m at next level, right associativity) : go_scope.
Notation "m ;;; k" := (bind m (fun _ => k))
  (at level 100, right associativity) : go_scope.

(** ** The program *)

(** [sanitizeKey]. *)
Definition sanitizeKey (k : string) : string :=
  Map (fun r => if IsSpace r then -1 else r) k.

Definition notSpace (c : rune) : bool := negb (IsSpace c).

(** The request [doRequest] builds: [http.NewRequestWithContext] with
    method GET, then the three [req.Header.Set] calls. *)
Definition newRequest (url auth : string) : Request :=
  mkRequest "GET" url
    [("Content-Type", "application/json");
     ("Accept", "application/json");
     ("Authorization", "Basic " ++ auth)].

Section Program.

Variable env : Env.

Definition second : Z := 1000000000.

(** [doRequest]: one authenticated GET. *)
Definition doRequest (url auth : string) : M (string + error) :=
  (match newRequestErr env url with
   | Some err => ret (inr err)
   | None =>
       let req := newRequest url auth in
       r <- ask (fun w => clientDo env w req) ;;
       emit (EvRequest req) ;;;
       match r with
       | inl err => ret (inr err)
       | inr resp =>
           if 500 <=? StatusCode resp then
             ret (inr (errorsNew ("API unavailable: " ++ Status resp)))
           else if 400 <=? StatusCode resp then
             ret (inr (errorsNew ("API returned error " ++ Status resp)))
           else
             match Body resp with
             | inr err => ret (inr err)
             | inl body => ret (inl body)
             end
       end
   end)%go.

(** The loop of [doRequestWithRetry], [remaining] iterations before
    [attempt < 3] fails. *)
Fixpoint retryLoop (remaining : nat) (attempt : Z) (lastErr : option error)
    (url auth : string) : M (string + error) :=
  (match remaining with
   | O =>
       match lastErr with
       | Some e => ret (inr (wrapError "después de 3 intentos: " e))
       | None => ret (inr (errorsNew "después de 3 intentos: %!w(<nil>)"))
       end
   | S remaining' =>
       let attemptBody : M (string + error) :=
         r <- doRequest url auth ;;
         match r with
         | inl body => ret (inl body)
         | inr err =>
             if negb (Contains (Error err) "deadline exceeded") then
               ret (inr err)
             else
               retryLoop remaining' (wrapInt (attempt + 1)) (Some err) url auth
         end in
       if 0 <? attempt then
         let delay := Z.shiftl 1 attempt * second in
         c <- ask (fun w => ctxDoneWithin env w delay) ;;
         match c with
         | Some cerr => ret (inr cerr)
         | None => emit (EvSleep delay) ;;; attemptBody
         end
       else attemptBody
   end)%go.

Definition doRequestWithRetry (url auth : string) : M (string + error) :=
  retryLoop 3 0 None url auth.

(** [safeUnmarshal]: [json.Unmarshal] under a deferred [recover()].  The
    function's result is unnamed, so when the deferred function has
    recovered a panic and logged it, the function returns the zero value
    of [error], [nil]; the target keeps what had been written to it. *)
Definition safeUnmarshal {T : Type} (unmarshal : string -> UnmarshalResult T)
    (zero : T) (data : string) : M (option error * T) :=
  (match unmarshal data with
   | UnmarshalPanic r v =>
       let err := match r with
                  | panicError e => e
                  | panicOther => errorsNew "panic"
                  end in
       emit (EvLog ("panic recuperado: " ++ Error err)) ;;;
       ret (None, v)
   | UnmarshalErr e => ret (Some (wrapError "JSON decode failed: " e), zero)
   | UnmarshalOk v => ret (None, v)
   end)%go.

Definition zeroProgramsPage : hackerOneProgramsPage.t :=
  hackerOneProgramsPage.mk [].

Definition zeroScopePage : hackerOneScopePage.t :=
  hackerOneScopePage.mk [].

(** The [for _, d := range pg.Data] loop of [fetchEligibleAssets]. *)
Definition eligibleAssets (data : list hackerOneScopePage.row) : list string :=
  map (fun d => hackerOneScopePage.AssetIdentifier (hackerOneScopePage.Attributes d))
      (filter (fun d => hackerOneScopePage.EligibleForBounty
                          (hackerOneScopePage.Attributes d)) data).

Definition scopeURL (handle : string) : string :=
  "https://api.hackerone.com/v1/hackers/programs/" ++ handle
  ++ "/structured_scopes".

Definition fetchEligibleAssets (auth handle : string)
  : M (list string + error) :=
  (let url := scopeURL handle in
   r <- doRequestWithRetry url auth ;;
   match r with
   | inr err => ret (inr err)
   | inl body =>
       u <- safeUnmarshal (jsonUnmarshalScope env) zeroScopePage body ;;
       match u with
       | (Some err, _) => ret (inr err)
       | (None, pg) => ret (inl (eligibleAssets (hackerOneScopePage.Data pg)))
       end
   end)%go.

(** [for _, asset := range assets { fmt.Fprintln(out, asset) }] *)
Fixpoint printAssets (assets : list string) : M unit :=
  (match assets with
   | [] => ret tt
   | asset :: rest => emit (EvWrite (asset ++ newline)) ;;; printAssets rest
   end)%go.

(** The [for _, d := range pg.Data] loop of [Fetch].  [inl processed]:
    the loop ran to its end; [inr (processed, err)]: the [return] inside
    the loop was taken. *)
Fixpoint rangePrograms (auth : string) (data : list hackerOneProgramsPage.row)
    (processed : Z) : M (Z + Z * error) :=
  (match data with
   | [] => ret (inl processed)
   | d :: rest =>
       if negb (hackerOneProgramsPage.OffersBounties
                  (hackerOneProgramsPage.Attributes d)) then
         rangePrograms auth rest processed
       else
         let handle := hackerOneProgramsPage.Handle
                         (hackerOneProgramsPage.Attributes d) in
         emit (EvPrint ("Procesando: " ++ handle ++ newline)) ;;;
         r <- fetchEligibleAssets auth handle ;;
         match r with
         | inr err =>
             ret (inr (processed,
                       wrapError ("handle " ++ handle ++ " failed: ") err))
         | inl assets =>
             printAssets assets ;;;
             rangePrograms auth rest (wrapInt (processed + 1))
         end
   end)%go.

Definition programsURL (page : Z) : string :=
  "https://api.hackerone.com/v1/hackers/programs?page[number]="
  ++ itoa page ++ "&page[size]=100".

(** The [for page := 1; ; page++] loop of [Fetch].  The loop has no
    bound of its own: [fuel] bounds the number of pages, and [None] means
    the fuel ran out before the loop returned. *)
Fixpoint fetchPages (fuel : nat) (auth : string) (page processed : Z)
    (w : World) : option ((Z * option error) * World) :=
  match fuel with
  | O => None
  | S fuel' =>
      match ctxErr env w with
      | Some cerr => Some ((processed, Some cerr), w)
      | None =>
          match doRequestWithRetry (programsURL page) auth w with
          | (inr err, w1) =>
              Some ((processed,
                     Some (wrapError "programs page request failed: " err)),
                    w1)
          | (inl body, w1) =>
              match safeUnmarshal (jsonUnmarshalPrograms env)
                      zeroProgramsPage body w1 with
              | ((Some err, _), w2) => Some ((processed, Some err), w2)
              | ((None, pg), w2) =>
                  match hackerOneProgramsPage.Data pg with
                  | [] => Some ((processed, None), w2)
                  | data =>
                      match rangePrograms auth data processed w2 with
                      | (inr (p, err), w3) => Some ((p, Some err), w3)
                      | (inl p, w3) =>
                          fetchPages fuel' auth (wrapInt (page + 1)) p w3
                      end
                  end
              end
          end
      end
  end.

(** [hackerOneFetcher.Fetch]. *)
Definition Fetch (fuel : nat) (apiKey : string) (w : World)
  : option ((Z * option error) * World) :=
  match SplitN2 apiKey ":"%char with
  | [username; key] =>
      let auth := base64Encode env (username ++ ":" ++ key) in
      fetchPages fuel auth 1 0 w
  | _ =>
      Some ((0, Some (errorsNew
                        "formato de credenciales inválido, debe ser username:apikey")),
            w)
  end.

End Program.

(** ** Reading a trace, and collaborators that behave *)

Definition offersBounties (d : hackerOneProgramsPage.row) : bool :=
  hackerOneProgramsPage.OffersBounties (hackerOneProgramsPage.Attributes d).

Definition handleOf (d : hackerOneProgramsPage.row) : string :=
  hackerOneProgramsPage.Handle (hackerOneProgramsPage.Attributes d).

(** The requests of a trace that ask for a page of the programs list. *)
Definition isPageRequest (r : Request) : bool :=
  HasPrefix (URL r) "https://api.hackerone.com/v1/hackers/programs?page[number]=".

Definition pageRequests (w : World) : list Request :=
  filter isPageRequest (requests w).

(** [n] pages, from [page] on. *)
Fixpoint pagesFrom (page : Z) (n : nat) : list Z :=
  match n with
  | O => []
  | S n' => page :: pagesFrom (page + 1) n'
  end.

(** The deadline marker [doRequestWithRetry] looks for. *)
Definition isTimeout (e : error) : bool :=
  Contains (Error e) "deadline exceeded".

(** Whatever has happened before, the server answers [req] with a
    status below 400 and the body [body], read without error. *)
Definition Serves (env : Env) (req : Request) (body : string) : Prop :=
  forall w, exists code status,
    clientDo env w req = inr (mkResponse code status (inl body)) /\ code < 400.

(** The server answers the programs pages [page], [page + 1], ... with
    bodies that decode to the lists [pages]. *)
Fixpoint PagesServed (env : Env) (auth : string) (page : Z)
    (pages : list (list hackerOneProgramsPage.row)) : Prop :=
  match pages with
  | [] => True
  | progs :: rest =>
      (exists body,
          Serves env (newRequest (programsURL page) auth) body
          /\ jsonUnmarshalPrograms env body
             = UnmarshalOk (hackerOneProgramsPage.mk progs))
      /\ PagesServed env auth (page + 1) rest
  end.

(** The server answers the scope request of every handle [h] with a body
    that decodes to the entries [scopes h]. *)
Definition ScopesServed (env : Env) (auth : string)
    (scopes : string -> list hackerOneScopePage.row) : Prop :=
  forall h, exists body,
    Serves env (newRequest (scopeURL h) auth) body
    /\ jsonUnmarshalScope env body = UnmarshalOk (hackerOneScopePage.mk (scopes h)).

(** The lines [Fetch] prints to the sink for the program [d]. *)
Definition linesOf (scopes : string -> list hackerOneScopePage.row)
    (d : hackerOneProgramsPage.row) : list string :=
  map (fun asset => asset ++ newline) (eligibleAssets (scopes (handleOf d))).

(** The events of one page of programs when every scope request is
    served at the first attempt: for each program that offers bounties,
    the progress line, the scope request and one write per eligible
    asset. *)
Fixpoint pageTrace (auth : string)
    (scopes : string -> list hackerOneScopePage.row)
    (data : list hackerOneProgramsPage.row) : list Event :=
  match data with
  | [] => []
  | d :: rest =>
      if offersBounties d then
        (EvPrint ("Procesando: " ++ handleOf d ++ newline)
           :: EvRequest (newRequest (scopeURL (handleOf d)) auth)
           :: map EvWrite (linesOf scopes d) ++ pageTrace auth scopes rest)%list
      else pageTrace auth scopes rest
  end.

(** The events of the pages [page], [page + 1], ...: the page request,
    then the events of its programs. *)
Fixpoint fetchTrace (auth : string)
    (scopes : string -> list hackerOneScopePage.row) (page : Z)
    (pages : list (list hackerOneProgramsPage.row)) : list Event :=
  match pages with
  | [] => []
  | data :: rest =>
      (EvRequest (newRequest (programsURL page) auth)
         :: pageTrace auth scopes data
         ++ fetchTrace auth scopes (page + 1) rest)%list
  end.

(** Page requests that follow the page counter: [n] attempts for the
    page [page], then the attempts for the next page, and so on. *)
Fixpoint pageBlocks (auth : string) (page : Z) (attempts : list nat)
  : list Request :=
  match attempts with
  | [] => []
  | n :: rest =>
      (repeat (newRequest (programsURL page) auth) n
         ++ pageBlocks auth (wrapInt (page + 1)) rest)%list
  end.

(** The text [safeUnmarshal] logs for a recovered panic value. *)
Definition panicText (r : panicValue) : string :=
  "panic recuperado: "
  ++ Error (match r with
            | panicError e => e
            | panicOther => errorsNew "panic"
            end).

(** ** Substitutable collaborators: a test server and its tables *)

Definition program (handle : string) (bounties : bool)
  : hackerOneProgramsPage.row :=
  hackerOneProgramsPage.mkRow (hackerOneProgramsPage.mkAttributes handle bounties).

Definition scopeEntry (eligible : bool) (asset : string)
  : hackerOneScopePage.row :=
  hackerOneScopePage.mkRow (hackerOneScopePage.mkAttributes eligible asset).

(** An environment whose context is never cancelled, that accepts every
    URL and leaves the credentials as they are. *)
Definition stubEnv (server : World -> Request -> error + Response)
    (programs : string -> UnmarshalResult hackerOneProgramsPage.t)
    (scope : string -> UnmarshalResult hackerOneScopePage.t) : Env :=
  mkEnv (fun _ => None) server (fun _ => None) (fun _ _ => None)
        programs scope (fun s => s).

Definition respond (code : Z) (status body : string) : error + Response :=
  inr (mkResponse code status (inl body)).

(** A server that answers every request with 200 and the URL asked for
    as body; the decoders below then are tables from URL to page. *)
Definition echoServer : World -> Request -> error + Response :=
  fun _ req => respond 200 "200 OK" (URL req).

(** Pages of 3, 2 and 0 programs. *)
Definition threePages : list (list hackerOneProgramsPage.row) :=
  [[program "a" true; program "b" false; program "c" true];
   [program "d" false; program "x" true]].

Definition programsTable (body : string)
  : UnmarshalResult hackerOneProgramsPage.t :=
  UnmarshalOk (hackerOneProgramsPage.mk
    (if String.eqb body (programsURL 1) then nth 0 threePages []
     else if String.eqb body (programsURL 2) then nth 1 threePages []
     else [])).

Definition scopesOf (h : string) : list hackerOneScopePage.row :=
  if String.eqb h "x" then [scopeEntry false "a.com"; scopeEntry true "b.com"]
  else if String.eqb h "a" then
    [scopeEntry true "a.example"; scopeEntry true "api.a.example"]
  else [].

Definition scopeTable (body : string) : UnmarshalResult hackerOneScopePage.t :=
  UnmarshalOk (hackerOneScopePage.mk
    (if String.eqb body (scopeURL "x") then scopesOf "x"
     else if String.eqb body (scopeURL "a") then scopesOf "a"
     else [])).

Definition echoEnv : Env := stubEnv echoServer programsTable scopeTable.

(** The scope entries the table of the test server holds for a handle. *)
Definition echoScopes (h : string) : list hackerOneScopePage.row :=
  match scopeTable (scopeURL h) with
  | UnmarshalOk pg => hackerOneScopePage.Data pg
  | _ => []
  end.

(** The same server, except that the scope of program "c" is not found. *)
Definition notFoundServer : World -> Request -> error + Response :=
  fun w req =>
    if String.eqb (URL req) (scopeURL "c") then respond 404 "404 Not Found" EmptyString
    else echoServer w req.

Definition notFoundEnv : Env := stubEnv notFoundServer programsTable scopeTable.

(** A server that is down, and a requester whose every attempt runs into
    its deadline. *)
Definition unavailableEnv : Env :=
  stubEnv (fun _ _ => respond 503 "503 Service Unavailable" EmptyString)
          programsTable scopeTable.

Definition timeoutEnv : Env :=
  stubEnv (fun _ _ => inl (errorsNew "context deadline exceeded"))
          programsTable scopeTable.

(** A server whose 404 carries a reason phrase of its own. *)
Definition markedStatusEnv : Env :=
  stubEnv (fun _ _ => respond 404 "404 deadline exceeded" EmptyString)
          programsTable scopeTable.

(** A decoder that panics on the programs page, before it has written
    anything to its target. *)
Definition panicEnv : Env :=
  stubEnv echoServer
    (fun _ => UnmarshalPanic
                (panicError (errorsNew "runtime error: index out of range"))
                zeroProgramsPage)
    scopeTable.

(** A requester whose first attempt runs into its deadline; from the
    second attempt on the server answers 404. *)
Definition lateNotFoundEnv : Env :=
  stubEnv (fun w _ =>
             match requests w with
             | [] => inl (errorsNew "context deadline exceeded")
             | _ => respond 404 "404 Not Found" EmptyString
             end)
          programsTable scopeTable.


(** ** The run coordinator: [main] and the other fetchers *)

(** [strings.Split(s, sep)] for a one-byte [sep]: the pieces between the
    separators, one piece (the whole string, even when empty) when there
    is no separator. *)
Fixpoint Split (s : string) (sep : ascii) : list string :=
  match s with
  | EmptyString => [EmptyString]
  | String c t =>
      if Ascii.eqb c sep then EmptyString :: Split t sep
      else match Split t sep with
           | piece :: rest => String c piece :: rest
           | [] => [String c EmptyString]
           end
  end.

(** The table [asciiSpace] of package strings: tab, line feed, vertical
    tab, form feed, carriage return and space. *)
Definition asciiSpace (c : ascii) : bool :=
  ((9 <=? byteVal c) && (byteVal c <=? 13)) || (byteVal c =? 32).

(** The first loop of [strings.TrimSpace]: it drops ASCII white space
    from the front.  [inl rest]: it stopped at the end or at an ASCII
    byte that is no space, and [rest] is [s[start:]]; [inr rest]: it ran
    into a byte that is not ASCII, at the head of [rest]. *)
Fixpoint trimSpaceStart (s : string) : string + string :=
  match s with
  | EmptyString => inl EmptyString
  | String c t =>
      if RuneSelf <=? byteVal c then inr s
      else if asciiSpace c then trimSpaceStart t
      else inl s
  end.

(** The second loop of [strings.TrimSpace], from the end of [s]: it
    drops ASCII white space from the back.  [inl kept]: it stopped at the
    front or at an ASCII byte that is no space, and [kept] is
    [s[:stop]]; [inr kept]: it ran into a byte that is not ASCII, the
    last one of [kept]. *)
Fixpoint trimSpaceStop (s : string) : string + string :=
  match s with
  | EmptyString => inl EmptyString
  | String c t =>
      match trimSpaceStop t with
      | inl EmptyString =>
          if RuneSelf <=? byteVal c then inr (String c EmptyString)
          else if asciiSpace c then inl EmptyString
          else inl (String c EmptyString)
      | inl kept => inl (String c kept)
      | inr kept => inr (String c kept)
      end
  end.

(** What [main] uses of the machine and of the libraries beyond the
    collaborators of the fetcher. *)
Record Host : Type := mkHost {
  (* the error of [os.OpenFile(path, O_CREATE|O_WRONLY|O_APPEND, 0644)] *)
  openFile : string -> option error;
  (* [unicode.ToLower], the case tables of package unicode *)
  unicodeToLower : rune -> rune;
  (* [strings.TrimFunc(s, unicode.IsSpace)] and
     [strings.TrimRightFunc(s, unicode.IsSpace)], which [TrimSpace]
     falls back to when it meets a byte that is not ASCII *)
  trimFuncSpace : string -> string;
  trimRightFuncSpace : string -> string
}.

(** [strings.TrimSpace]. *)
Definition TrimSpace (host : Host) (s : string) : string :=
  match trimSpaceStart s with
  | inr rest => trimFuncSpace host rest
  | inl rest =>
      match trimSpaceStop rest with
      | inr kept => trimRightFuncSpace host kept
      | inl kept => kept
      end
  end.

Fixpoint mapBytes (f : ascii -> ascii) (s : string) : string :=
  match s with
  | EmptyString => EmptyString
  | String c t => String (f c) (mapBytes f t)
  end.

Definition isUpperByte (c : ascii) : bool :=
  (65 <=? byteVal c) && (byteVal c <=? 90).

(** [c += 'a' - 'A'] for the bytes 'A' to 'Z'. *)
Definition lowerByte (c : ascii) : ascii :=
  if isUpperByte c then byte (byteVal c + 32) else c.

(** [strings.ToLower]: byte by byte when the string is ASCII, through
    [Map(unicode.ToLower, s)] otherwise. *)
Definition ToLower (host : Host) (s : string) : string :=
  let bytes := list_ascii_of_string s in
  if forallb (fun c => byteVal c <? RuneSelf) bytes then
    if existsb isUpperByte bytes then mapBytes lowerByte s else s
  else Map (unicodeToLower host) s.

(** The implementations of [ProgramFetcher]. *)
Inductive ProgramFetcher : Type :=
| hackerOneFetcher
| notImplementedFetcher (name : string).

(** The values of the command line flags after [flag.Parse()]. *)
Record Flags : Type := mkFlags {
  programFlag : string;
  username : string;
  apiKey : string;
  outputFile : string;
  timeout : Z
}.

(** How [main] ends: through [log.Fatal] or [log.Fatalf], which print
    and call [os.Exit(1)], so that the deferred [writer.Flush()],
    [f.Close()] and [cancel()] are not run; or by returning, which runs
    them. *)
Inductive Ending : Type :=
| Fatal
| Returned.

Section Main.

Variable host : Host.
Variable env : Env.

(** [fetcher.Fetch(ctx, credentials, writer)], by implementation. *)
Definition FetchOf (fetcher : ProgramFetcher) (fuel : nat) (credentials : string)
    (w : World) : option ((Z * option error) * World) :=
  match fetcher with
  | hackerOneFetcher => Fetch env fuel credentials w
  | notImplementedFetcher name =>
      Some ((0, Some (errorsNew ("fetcher para " ++ name
                                 ++ " aún no implementado"))), w)
  end.

(** The map [fetchers] of [main], looked up at [p]. *)
Definition fetchers (p : string) : option ProgramFetcher :=
  if String.eqb p "hackerone" then Some hackerOneFetcher
  else if String.eqb p "intigriti" then Some (notImplementedFetcher "Intigriti")
  else if String.eqb p "bugcrowd" then Some (notImplementedFetcher "Bugcrowd")
  else None.

(** The loop of [main] over [strings.Split] of the program flag at the
    commas.  [inl total]: the loop ran to its end; [inr tt]: [log.Fatalf]
    was called.  The outer [None]: a fetcher ran out of fuel. *)
Fixpoint rangePlatforms (fuel : nat) (cleanUsername cleanKey : string)
    (items : list string) (total : Z) (w : World)
  : option ((Z + unit) * World) :=
  match items with
  | [] => Some (inl total, w)
  | item :: rest =>
      let p := ToLower host (TrimSpace host item) in
      match fetchers p with
      | None =>
          rangePlatforms fuel cleanUsername cleanKey rest total
            (w ++ [EvLog ("programa desconocido: " ++ p)])%list
      | Some fetcher =>
          let credentials :=
            if String.eqb p "hackerone" then cleanUsername ++ ":" ++ cleanKey
            else cleanKey in
          match FetchOf fetcher fuel credentials w with
          | None => None
          | Some ((cnt, Some err), w1) =>
              Some (inr tt, (w1 ++ [EvLog ("ERROR: " ++ Error err)])%list)
          | Some ((cnt, None), w1) =>
              rangePlatforms fuel cleanUsername cleanKey rest
                (wrapInt (total + cnt)) w1
          end
      end
  end.

(** [main], from the parsed flags on. *)
Definition main (fuel : nat) (flags : Flags) (w : World)
  : option (Ending * World) :=
  if String.eqb (apiKey flags) EmptyString then
    Some (Fatal, (w ++ [EvLog "apikey es obligatorio"])%list)
  else if String.eqb (username flags) EmptyString then
    Some (Fatal, (w ++ [EvLog "username es obligatorio para HackerOne"])%list)
  else
    let cleanKey := sanitizeKey (apiKey flags) in
    let cleanUsername := sanitizeKey (username flags) in
    match openFile host (outputFile flags) with
    | Some err =>
        Some (Fatal,
              (w ++ [EvLog ("no se pudo abrir " ++ outputFile flags ++ ": "
                            ++ Error err)])%list)
    | None =>
        match rangePlatforms fuel cleanUsername cleanKey
                (Split (programFlag flags) ",") 0 w with
        | None => None
        | Some (inr _, w1) => Some (Fatal, w1)
        | Some (inl total, w1) =>
            Some (Returned,
                  (w1 ++ [EvPrint ("Total de programas procesados: "
                                   ++ itoa total ++ newline)])%list)
        end
    end.

End Main.

(** A host whose output file opens, for strings that are ASCII. *)
Definition stubHost : Host :=
  mkHost (fun _ => None) (fun r => r) (fun s => s) (fun s => s).

(** The two back-off delays of [doRequestWithRetry], in nanoseconds. *)
Definition backoff : list Z := [2 * second; 4 * second].

(** All the bytes of [s] satisfy [p]. *)
Definition allBytes (p : ascii -> bool) (s : string) : bool :=
  forallb p (list_ascii_of_string s).

Definition isASCIIByte (c : ascii) : bool := byteVal c <? RuneSelf.

(** The entries of the log. *)
Definition logged (w : World) : list string :=
  flat_map (fun ev => match ev with EvLog l => [l] | _ => [] end) w.

(** The delays of the turns [attempt], [attempt + 1], ... of the retry
    loop: a turn sleeps [1 << attempt] seconds unless it is the first. *)
Fixpoint delaysFrom (remaining : nat) (attempt : Z) : list Z :=
  match remaining with
  | O => []
  | S remaining' =>
      ((if 0 <? attempt then [Z.shiftl 1 attempt * second] else [])
         ++ delaysFrom remaining' (attempt + 1))%list
  end.

(** The bytes of [s] that satisfy [p]. *)
Fixpoint filterBytes (p : ascii -> bool) (s : string) : string :=
  match s with
  | EmptyString => EmptyString
  | String c t => if p c then String c (filterBytes p t) else filterBytes p t
  end.

(** The name [main] looks up for an item of the program flag. *)
Definition platformOf (host : Host) (item : string) : string :=
  ToLower host (TrimSpace host item).

(** The headers every request of [doRequest] carries. *)
Definition headersFor (auth : string) : list (string * string) :=
  [("Content-Type", "application/json");
   ("Accept", "application/json");
   ("Authorization", "Basic " ++ auth)].

(** A requester whose every attempt runs into its deadline, under a
    context that is done before any timer of [limit] nanoseconds or
    more. *)
Definition deadlineEnv (limit : Z) : Env :=
  mkEnv (fun _ => None)
        (fun _ _ => inl (errorsNew "context deadline exceeded"))
        (fun _ => None)
        (fun _ d => if limit <=? d then Some (errorsNew "context canceled")
                    else None)
        programsTable scopeTable (fun s => s).

(** A server whose first answer is lost to the deadline. *)
Definition flakyEnv : Env :=
  stubEnv (fun w req =>
             match requests w with
             | [] => inl (errorsNew "context deadline exceeded")
             | _ => echoServer w req
             end)
          programsTable scopeTable.

(** The test server, down when asked for the third page of programs. *)
Definition thirdPageDownEnv : Env :=
  stubEnv (fun w req =>
             if String.eqb (URL req) (programsURL 3) then
               respond 503 "503 Service Unavailable" EmptyString
             else echoServer w req)
          programsTable scopeTable.

(** A context that is done from the start. *)
Definition cancelledEnv : Env :=
  mkEnv (fun _ => None) echoServer
        (fun _ => Some (errorsNew "context canceled"))
        (fun _ _ => Some (errorsNew "context canceled"))
        programsTable scopeTable (fun s => s).

(** The flags of a run for the user "user" with the key "key", the
    output file and the timeout at their defaults. *)
Definition flagsFor (programs : string) : Flags :=
  mkFlags programs "user" "key" "programasguardado.txt" (30 * second).

(** * Properties *)

(** ** UTF-8: encoding and decoding are inverse of each other *)

(** *** Bytes and bit operations as arithmetic *)

Lemma byteVal_range (c : ascii) : 0 <= byteVal c < 256.
Proof.
  unfold byteVal. pose proof (N_ascii_bounded c). lia.
Qed.

Lemma byteVal_byte (z : Z) : 0 <= z < 256 -> byteVal (byte z) = z.
Proof.
  intros Hz. unfold byteVal, byte.
  rewrite Z.mod_small by lia.
  rewrite N_ascii_embedding by lia. lia.
Qed.

Lemma byte_byteVal (c : ascii) : byte (byteVal c) = c.
Proof.
  unfold byte. pose proof (byteVal_range c) as Hc.
  rewrite Z.mod_small by lia. unfold byteVal.
  rewrite N2Z.id. apply ascii_N_embedding.
Qed.

Lemma lor_add_disjoint (a b n : Z) :
  0 <= n -> 0 <= b < 2 ^ n -> Z.lor (a * 2 ^ n) b = a * 2 ^ n + b.
Proof.
  intros Hn Hb.
  rewrite <- (Z.add_lor_land (a * 2 ^ n) b).
  assert (Z.land (a * 2 ^ n) b = 0) as ->; [|lia].
  apply Z.bits_inj'. intros i Hi. rewrite Z.land_spec, Z.bits_0.
  destruct (Z.lt_ge_cases i n).
  - rewrite Z.mul_pow2_bits_low by lia. reflexivity.
  - destruct (Z.eq_dec b 0) as [->|Hb0].
    + rewrite Z.bits_0. apply andb_false_r.
    + rewrite (Z.bits_above_log2 b i); [apply andb_false_r|lia|].
      apply Z.lt_le_trans with n; [|lia]. apply Z.log2_lt_pow2; lia.
Qed.

Lemma land_mask (x n : Z) : 0 <= n -> Z.land x (2 ^ n - 1) = x mod 2 ^ n.
Proof.
  intros Hn. rewrite <- Z.land_ones by lia. f_equal.
  rewrite Z.ones_equiv. lia.
Qed.

Lemma land_0x3F x : Z.land x 0x3F = x mod 64.
Proof. apply (land_mask x 6). lia. Qed.
Lemma land_0x1F x : Z.land x 0x1F = x mod 32.
Proof. apply (land_mask x 5). lia. Qed.
Lemma land_0x0F x : Z.land x 0x0F = x mod 16.
Proof. apply (land_mask x 4). lia. Qed.
Lemma land_0x07 x : Z.land x 0x07 = x mod 8.
Proof. apply (land_mask x 3). lia. Qed.

Lemma shiftr_6 x : Z.shiftr x 6 = x / 64.
Proof. apply (Z.shiftr_div_pow2 x 6). lia. Qed.
Lemma shiftr_12 x : Z.shiftr x 12 = x / 64 / 64.
Proof. rewrite (Z.shiftr_div_pow2 x 12) by lia. rewrite Z.div_div by lia. reflexivity. Qed.
Lemma shiftr_18 x : Z.shiftr x 18 = x / 64 / 64 / 64.
Proof. rewrite (Z.shiftr_div_pow2 x 18) by lia. rewrite !Z.div_div by lia. reflexivity. Qed.

Lemma lor_lead (k lead x : Z) :
  0 <= k -> 0 <= x < 2 ^ k -> lead mod 2 ^ k = 0 -> Z.lor lead x = lead + x.
Proof.
  intros Hk Hx Hl.
  assert (lead = lead / 2 ^ k * 2 ^ k) as E.
  { pose proof (Z.div_mod lead (2 ^ k)). lia. }
  rewrite E at 1. rewrite lor_add_disjoint by lia. lia.
Qed.

Lemma shiftl_lor (a b n : Z) :
  0 <= n -> 0 <= b < 2 ^ n -> Z.lor (Z.shiftl a n) b = a * 2 ^ n + b.
Proof.
  intros Hn Hb. rewrite Z.shiftl_mul_pow2 by lia. apply lor_add_disjoint; lia.
Qed.

(** *** Encoding, in arithmetic form *)

Ltac ztest :=
  repeat match goal with
         | |- context [?a <=? ?b] => destruct (Z.leb_spec a b); try lia
         | |- context [?a <? ?b] => destruct (Z.ltb_spec a b); try lia
         | |- context [?a =? ?b] => destruct (Z.eqb_spec a b); try lia
         end.

Ltac zdiv := Z.to_euclidean_division_equations; lia.


Lemma AppendRune_1 r : 0 <= r <= 0x7F -> AppendRune r = String (byte r) EmptyString.
Proof.
  intros H. unfold AppendRune. rewrite (Z.mod_small r) by lia.
  ztest. reflexivity.
Qed.

Lemma AppendRune_2 r :
  0x80 <= r <= 0x7FF ->
  AppendRune r =
  String (byte (0xC0 + r / 64)) (String (byte (0x80 + r mod 64)) EmptyString).
Proof.
  intros H. unfold AppendRune. rewrite (Z.mod_small r) by lia.
  ztest. cbv beta iota zeta delta [orb andb]. rewrite shiftr_6, land_0x3F.
  rewrite (lor_lead 5 0xC0) by (try reflexivity; zdiv).
  rewrite (lor_lead 6 0x80) by (try reflexivity; zdiv).
  reflexivity.
Qed.

Lemma AppendRune_3 r :
  0x800 <= r <= 0xFFFF -> ValidRune r = true ->
  AppendRune r =
  String (byte (0xE0 + r / 64 / 64))
    (String (byte (0x80 + (r / 64) mod 64))
       (String (byte (0x80 + r mod 64)) EmptyString)).
Proof.
  intros H Hv. unfold AppendRune. rewrite (Z.mod_small r) by lia.
  unfold ValidRune, MaxRune, surrogateMin, surrogateMax in *.
  destruct (Z.leb_spec r 0x7F); [lia|].
  destruct (Z.leb_spec r 0x7FF); [lia|].
  destruct (Z.ltb_spec 0x10FFFF r); [lia|].
  assert ((0xD800 <=? r) && (r <=? 0xDFFF) = false) as ->.
  { apply andb_false_iff.
    apply orb_true_iff in Hv as [Hv|Hv]; apply andb_true_iff in Hv as [Hv1 Hv2];
      lia. }
  destruct (Z.leb_spec r 0xFFFF); [|lia]. cbv beta iota zeta delta [orb andb].
  rewrite shiftr_6, shiftr_12, !land_0x3F.
  rewrite (lor_lead 4 0xE0) by (try reflexivity; zdiv).
  rewrite !(lor_lead 6 0x80) by (try reflexivity; zdiv).
  reflexivity.
Qed.

Lemma AppendRune_4 r :
  0x10000 <= r <= MaxRune ->
  AppendRune r =
  String (byte (0xF0 + r / 64 / 64 / 64))
    (String (byte (0x80 + (r / 64 / 64) mod 64))
       (String (byte (0x80 + (r / 64) mod 64))
          (String (byte (0x80 + r mod 64)) EmptyString))).
Proof.
  unfold MaxRune. intros H. unfold AppendRune. rewrite (Z.mod_small r) by lia.
  unfold MaxRune, surrogateMin, surrogateMax in *.
  destruct (Z.leb_spec r 0x7F); [lia|].
  destruct (Z.leb_spec r 0x7FF); [lia|].
  destruct (Z.ltb_spec 0x10FFFF r); [lia|].
  destruct (Z.leb_spec 0xD800 r); [|lia].
  destruct (Z.leb_spec r 0xDFFF); [lia|].
  destruct (Z.leb_spec r 0xFFFF); [lia|]. cbv beta iota zeta delta [orb andb].
  rewrite shiftr_6, shiftr_12, shiftr_18, !land_0x3F.
  rewrite (lor_lead 3 0xF0) by (try reflexivity; zdiv).
  rewrite !(lor_lead 6 0x80) by (try reflexivity; zdiv).
  reflexivity.
Qed.

(** *** Decoding, in arithmetic form *)

Lemma decode2_val s0 s1 :
  Z.lor (Z.shiftl (Z.land s0 0x1F) 6) (Z.land s1 0x3F)
  = s0 mod 32 * 64 + s1 mod 64.
Proof.
  rewrite land_0x1F, land_0x3F.
  rewrite shiftl_lor by (try lia; zdiv). lia.
Qed.

Lemma decode3_val s0 s1 s2 :
  Z.lor (Z.lor (Z.shiftl (Z.land s0 0x0F) 12) (Z.shiftl (Z.land s1 0x3F) 6))
        (Z.land s2 0x3F)
  = s0 mod 16 * 4096 + s1 mod 64 * 64 + s2 mod 64.
Proof.
  rewrite land_0x0F, !land_0x3F.
  rewrite (Z.shiftl_mul_pow2 (s1 mod 64) 6) by lia.
  rewrite (shiftl_lor (s0 mod 16) _ 12) by (try lia; zdiv).
  replace (s0 mod 16 * 2 ^ 12 + s1 mod 64 * 2 ^ 6)
    with ((s0 mod 16 * 64 + s1 mod 64) * 2 ^ 6) by lia.
  rewrite lor_add_disjoint by (try lia; zdiv). lia.
Qed.

Lemma decode4_val s0 s1 s2 s3 :
  Z.lor (Z.lor (Z.lor (Z.shiftl (Z.land s0 0x07) 18)
                      (Z.shiftl (Z.land s1 0x3F) 12))
               (Z.shiftl (Z.land s2 0x3F) 6))
        (Z.land s3 0x3F)
  = s0 mod 8 * 262144 + s1 mod 64 * 4096 + s2 mod 64 * 64 + s3 mod 64.
Proof.
  rewrite land_0x07, !land_0x3F.
  rewrite (Z.shiftl_mul_pow2 (s1 mod 64) 12) by lia.
  rewrite (Z.shiftl_mul_pow2 (s2 mod 64) 6) by lia.
  rewrite (shiftl_lor (s0 mod 8) _ 18) by (try lia; zdiv).
  replace (s0 mod 8 * 2 ^ 18 + s1 mod 64 * 2 ^ 12)
    with ((s0 mod 8 * 64 + s1 mod 64) * 2 ^ 12) by lia.
  rewrite (lor_add_disjoint _ _ 12) by (try lia; zdiv).
  replace ((s0 mod 8 * 64 + s1 mod 64) * 2 ^ 12 + s2 mod 64 * 2 ^ 6)
    with (((s0 mod 8 * 64 + s1 mod 64) * 64 + s2 mod 64) * 2 ^ 6) by lia.
  rewrite lor_add_disjoint by (try lia; zdiv). lia.
Qed.

Lemma first_1 b : 0 <= b < 0x80 -> first b = Some (1%nat, (0, 0)).
Proof. intros. unfold first. ztest. reflexivity. Qed.

Lemma first_2 b : 0xC2 <= b < 0xE0 -> first b = Some (2%nat, (0x80, 0xBF)).
Proof. intros. unfold first. ztest. reflexivity. Qed.

Lemma first_3 b :
  0xE0 < b < 0xF0 -> b <> 0xED -> first b = Some (3%nat, (0x80, 0xBF)).
Proof. intros. unfold first. ztest. reflexivity. Qed.

Lemma first_4 b : 0xF0 < b < 0xF4 -> first b = Some (4%nat, (0x80, 0xBF)).
Proof. intros. unfold first. ztest. reflexivity. Qed.

Lemma RuneLen_valid r :
  ValidRune r = true ->
  RuneLen r = (if r <=? 0x7F then 1 else if r <=? 0x7FF then 2
               else if r <=? 0xFFFF then 3 else 4).
Proof.
  unfold ValidRune, RuneLen, MaxRune, surrogateMin, surrogateMax. intros Hv.
  apply orb_true_iff in Hv as [Hv|Hv]; apply andb_true_iff in Hv as [Hv1 Hv2];
    ztest; reflexivity.
Qed.

Lemma ValidRune_range r :
  ValidRune r = true <-> (0 <= r < 0xD800 \/ 0xDFFF < r <= 0x10FFFF).
Proof.
  unfold ValidRune, MaxRune, surrogateMin, surrogateMax.
  rewrite orb_true_iff, !andb_true_iff. lia.
Qed.

(** Decoding what [AppendRune] wrote gives the rune back. *)
Lemma Decode_AppendRune r t :
  ValidRune r = true ->
  DecodeRuneInString (AppendRune r ++ t) = (r, Z.to_nat (RuneLen r)).
Proof.
  intros Hv. rewrite (RuneLen_valid r Hv).
  apply ValidRune_range in Hv.
  destruct (Z.leb_spec r 0x7F) as [H1|H1].
  { rewrite AppendRune_1 by lia. cbn [append]. unfold DecodeRuneInString.
    rewrite byteVal_byte by lia. rewrite first_1 by lia. reflexivity. }
  destruct (Z.leb_spec r 0x7FF) as [H2|H2].
  { rewrite AppendRune_2 by lia. cbn [append]. unfold DecodeRuneInString.
    rewrite !byteVal_byte by zdiv. rewrite first_2 by zdiv.
    rewrite decode2_val.
    assert ((0x80 + r mod 64 <? 0x80) || (0xBF <? 0x80 + r mod 64) = false) as ->.
    { apply orb_false_iff. split; [apply Z.ltb_ge|apply Z.ltb_ge]; zdiv. }
    cbn [Nat.leb]. apply f_equal2; [zdiv|reflexivity]. }
  destruct (Z.leb_spec r 0xFFFF) as [H3|H3].
  { rewrite AppendRune_3 by (try apply ValidRune_range; lia). cbn [append].
    unfold DecodeRuneInString.
    rewrite !byteVal_byte by zdiv.
    assert (continuation (0x80 + r mod 64) = true) as Hc.
    { unfold continuation. apply andb_true_iff. split; apply Z.leb_le; zdiv. }
    assert (exists lo hi, first (0xE0 + r / 64 / 64) = Some (3%nat, (lo, hi))
            /\ lo <= 0x80 + (r / 64) mod 64 <= hi) as (lo & hi & -> & Hr).
    { destruct (Z.eq_dec (r / 64 / 64) 0) as [E|E].
      - rewrite E. exists 0xA0, 0xBF. split; [reflexivity|zdiv].
      - destruct (Z.eq_dec (r / 64 / 64) 13) as [E'|E'].
        + rewrite E'. exists 0x80, 0x9F. split; [reflexivity|zdiv].
        + exists 0x80, 0xBF. split; [apply first_3; zdiv|zdiv]. }
    assert ((0x80 + (r / 64) mod 64 <? lo) || (hi <? 0x80 + (r / 64) mod 64) = false) as ->.
    { apply orb_false_iff. split; apply Z.ltb_ge; lia. }
    rewrite Hc. cbn [Nat.leb negb]. rewrite decode3_val. apply f_equal2; [zdiv|reflexivity]. }
  { rewrite AppendRune_4 by (unfold MaxRune; lia). cbn [append].
    unfold DecodeRuneInString.
    rewrite !byteVal_byte by zdiv.
    assert (continuation (0x80 + r mod 64) = true) as Hc.
    { unfold continuation. apply andb_true_iff. split; apply Z.leb_le; zdiv. }
    assert (continuation (0x80 + (r / 64) mod 64) = true) as Hc'.
    { unfold continuation. apply andb_true_iff. split; apply Z.leb_le; zdiv. }
    assert (exists lo hi, first (0xF0 + r / 64 / 64 / 64) = Some (4%nat, (lo, hi))
            /\ lo <= 0x80 + (r / 64 / 64) mod 64 <= hi) as (lo & hi & -> & Hr).
    { destruct (Z.eq_dec (r / 64 / 64 / 64) 0) as [E|E].
      - rewrite E. exists 0x90, 0xBF. split; [reflexivity|zdiv].
      - destruct (Z.eq_dec (r / 64 / 64 / 64) 4) as [E'|E'].
        + rewrite E'. exists 0x80, 0x8F. split; [reflexivity|zdiv].
        + exists 0x80, 0xBF. split; [apply first_4; zdiv|zdiv]. }
    assert ((0x80 + (r / 64 / 64) mod 64 <? lo) || (hi <? 0x80 + (r / 64 / 64) mod 64) = false) as ->.
    { apply orb_false_iff. split; apply Z.ltb_ge; lia. }
    rewrite Hc, Hc'. cbn [Nat.leb negb]. rewrite decode4_val. apply f_equal2; [zdiv|reflexivity]. }
Qed.

(** Encoding what [DecodeRuneInString] accepted gives the bytes back. *)
Lemma byte_eq (z : Z) (c : ascii) : z = byteVal c -> byte z = c.
Proof. intros ->. apply byte_byteVal. Qed.

Lemma encode_decoded_1 c0 :
  byteVal c0 < 0x80 ->
  ValidRune (byteVal c0) = true /\ RuneLen (byteVal c0) = 1
  /\ AppendRune (byteVal c0) = String c0 EmptyString.
Proof.
  intros H. pose proof (byteVal_range c0).
  assert (ValidRune (byteVal c0) = true) as Hv by (apply ValidRune_range; lia).
  split; [exact Hv|]. split.
  - rewrite RuneLen_valid by exact Hv. ztest; reflexivity.
  - rewrite AppendRune_1 by lia. rewrite byte_byteVal. reflexivity.
Qed.

Lemma encode_decoded_2 c0 c1 :
  0xC2 <= byteVal c0 < 0xE0 -> 0x80 <= byteVal c1 <= 0xBF ->
  let c := byteVal c0 mod 32 * 64 + byteVal c1 mod 64 in
  ValidRune c = true /\ RuneLen c = 2
  /\ AppendRune c = String c0 (String c1 EmptyString).
Proof.
  intros H0 H1 c.
  assert (0x80 <= c <= 0x7FF) as Hc by (subst c; zdiv).
  assert (ValidRune c = true) as Hv by (apply ValidRune_range; lia).
  split; [exact Hv|]. split.
  - rewrite RuneLen_valid by exact Hv. ztest; reflexivity.
  - rewrite AppendRune_2 by lia.
    rewrite (byte_eq _ c0) by (subst c; zdiv).
    rewrite (byte_eq _ c1) by (subst c; zdiv). reflexivity.
Qed.

Lemma encode_decoded_3 c0 c1 c2 :
  0xE0 <= byteVal c0 < 0xF0 ->
  (if byteVal c0 =? 0xE0 then 0xA0 else 0x80) <= byteVal c1
    <= (if byteVal c0 =? 0xED then 0x9F else 0xBF) ->
  0x80 <= byteVal c2 <= 0xBF ->
  let c := byteVal c0 mod 16 * 4096 + byteVal c1 mod 64 * 64
           + byteVal c2 mod 64 in
  ValidRune c = true /\ RuneLen c = 3
  /\ AppendRune c = String c0 (String c1 (String c2 EmptyString)).
Proof.
  intros H0 H1 H2 c.
  assert (0x800 <= c <= 0xFFFF /\ (c < 0xD800 \/ 0xDFFF < c)) as Hc.
  { subst c. revert H1. ztest; intros; zdiv. }
  assert (ValidRune c = true) as Hv by (apply ValidRune_range; lia).
  split; [exact Hv|]. split.
  - rewrite RuneLen_valid by exact Hv. ztest; reflexivity.
  - rewrite AppendRune_3 by (try exact Hv; lia).
    assert (0x80 <= byteVal c1 <= 0xBF) as H1' by (revert H1; ztest; lia).
    clear H1 Hv Hc.
    rewrite (byte_eq _ c0) by (subst c; zdiv).
    rewrite (byte_eq _ c1) by (subst c; zdiv).
    rewrite (byte_eq _ c2) by (subst c; zdiv). reflexivity.
Qed.

Lemma encode_decoded_4 c0 c1 c2 c3 :
  0xF0 <= byteVal c0 <= 0xF4 ->
  (if byteVal c0 =? 0xF0 then 0x90 else 0x80) <= byteVal c1
    <= (if byteVal c0 =? 0xF4 then 0x8F else 0xBF) ->
  0x80 <= byteVal c2 <= 0xBF ->
  0x80 <= byteVal c3 <= 0xBF ->
  let c := byteVal c0 mod 8 * 262144 + byteVal c1 mod 64 * 4096
           + byteVal c2 mod 64 * 64 + byteVal c3 mod 64 in
  ValidRune c = true /\ RuneLen c = 4
  /\ AppendRune c = String c0 (String c1 (String c2 (String c3 EmptyString))).
Proof.
  intros H0 H1 H2 H3 c.
  assert (0x10000 <= c <= 0x10FFFF) as Hc.
  { subst c. revert H1. ztest; intros; zdiv. }
  assert (ValidRune c = true) as Hv by (apply ValidRune_range; lia).
  split; [exact Hv|]. split.
  - rewrite RuneLen_valid by exact Hv. ztest; reflexivity.
  - rewrite AppendRune_4 by (unfold MaxRune; lia).
    assert (0x80 <= byteVal c1 <= 0xBF) as H1' by (revert H1; ztest; lia).
    clear H1 Hv Hc.
    rewrite (byte_eq _ c0) by (subst c; zdiv).
    rewrite (byte_eq _ c1) by (subst c; zdiv).
    rewrite (byte_eq _ c2) by (subst c; zdiv).
    rewrite (byte_eq _ c3) by (subst c; zdiv). reflexivity.
Qed.

Lemma first_Some b sz lo hi :
  0 <= b < 256 -> first b = Some (sz, (lo, hi)) ->
  (sz = 1%nat /\ b < 0x80)
  \/ (sz = 2%nat /\ 0xC2 <= b < 0xE0 /\ lo = 0x80 /\ hi = 0xBF)
  \/ (sz = 3%nat /\ 0xE0 <= b < 0xF0
      /\ lo = (if b =? 0xE0 then 0xA0 else 0x80)
      /\ hi = (if b =? 0xED then 0x9F else 0xBF))
  \/ (sz = 4%nat /\ 0xF0 <= b <= 0xF4
      /\ lo = (if b =? 0xF0 then 0x90 else 0x80)
      /\ hi = (if b =? 0xF4 then 0x8F else 0xBF)).
Proof.
  intros Hb. unfold first.
  destruct (Z.ltb_spec b 0x80); [intros [= <- <- <-]; left; lia|].
  destruct (Z.ltb_spec b 0xC2); [discriminate|].
  destruct (Z.ltb_spec b 0xE0);
    [intros [= <- <- <-]; right; left; lia|].
  destruct (Z.eqb_spec b 0xE0);
    [intros [= <- <- <-]; right; right; left; subst b; cbn; lia|].
  destruct (Z.eqb_spec b 0xED);
    [intros [= <- <- <-]; right; right; left; subst b; cbn; lia|].
  destruct (Z.ltb_spec b 0xF0);
    [intros [= <- <- <-]; right; right; left; lia|].
  destruct (Z.eqb_spec b 0xF0);
    [intros [= <- <- <-]; right; right; right; subst b; cbn; lia|].
  destruct (Z.ltb_spec b 0xF4);
    [intros [= <- <- <-]; right; right; right|].
  { destruct (Z.eqb_spec b 0xF4); lia. }
  destruct (Z.eqb_spec b 0xF4);
    [intros [= <- <- <-]; right; right; right; subst b; cbn; lia|].
  discriminate.
Qed.

Lemma continuation_range b : continuation b = true <-> 0x80 <= b <= 0xBF.
Proof. unfold continuation. rewrite andb_true_iff. lia. Qed.

Lemma accept_range s1 lo hi :
  (s1 <? lo) || (hi <? s1) = false <-> lo <= s1 <= hi.
Proof. rewrite orb_false_iff, !Z.ltb_ge. lia. Qed.

(** What [DecodeRuneInString] returns on a non-empty string: the error
    rune with width 1, or a scalar value with the width of its encoding,
    which the string starts with. *)
Lemma Decode_cases s c w :
  s <> EmptyString -> DecodeRuneInString s = (c, w) ->
  (c = RuneError /\ w = 1%nat)
  \/ (ValidRune c = true /\ RuneLen c = Z.of_nat w
      /\ s = AppendRune c ++ skip w s).
Proof.
  intros Hs. destruct s as [|c0 t0]; [congruence|]. clear Hs.
  unfold DecodeRuneInString. pose proof (byteVal_range c0) as R0.
  destruct (first (byteVal c0)) as [[sz [lo hi]]|] eqn:F;
    [|intros [= <- <-]; left; auto].
  apply first_Some in F; [|exact R0].
  destruct F as [[-> H0]|[(-> & H0 & -> & ->)|[(-> & H0 & Hlo & Hhi)|(-> & H0 & Hlo & Hhi)]]].
  - intros [= <- <-]. right.
    destruct (encode_decoded_1 c0 H0) as (Hv & Hl & He).
    rewrite He. auto.
  - destruct t0 as [|c1 t1]; [intros [= <- <-]; left; auto|].
    destruct ((byteVal c1 <? 0x80) || (0xBF <? byteVal c1)) eqn:A;
      [intros [= <- <-]; left; auto|].
    apply accept_range in A. cbn [Nat.leb]. rewrite decode2_val.
    intros [= <- <-]. right.
    destruct (encode_decoded_2 c0 c1 H0 A) as (Hv & Hl & He).
    rewrite He. auto.
  - destruct t0 as [|c1 t1]; [intros [= <- <-]; left; auto|].
    destruct ((byteVal c1 <? lo) || (hi <? byteVal c1)) eqn:A;
      [intros [= <- <-]; left; auto|].
    apply accept_range in A. cbn [Nat.leb]. subst lo hi.
    destruct t1 as [|c2 t2]; [intros [= <- <-]; left; auto|].
    destruct (continuation (byteVal c2)) eqn:C2; cbn [negb];
      [|intros [= <- <-]; left; auto].
    apply continuation_range in C2. rewrite decode3_val.
    intros [= <- <-]. right.
    destruct (encode_decoded_3 c0 c1 c2 H0 A C2) as (Hv & Hl & He).
    rewrite He. auto.
  - destruct t0 as [|c1 t1]; [intros [= <- <-]; left; auto|].
    destruct ((byteVal c1 <? lo) || (hi <? byteVal c1)) eqn:A;
      [intros [= <- <-]; left; auto|].
    apply accept_range in A. cbn [Nat.leb]. subst lo hi.
    destruct t1 as [|c2 t2]; [intros [= <- <-]; left; auto|].
    destruct (continuation (byteVal c2)) eqn:C2; cbn [negb];
      [|intros [= <- <-]; left; auto].
    apply continuation_range in C2.
    destruct t2 as [|c3 t3]; [intros [= <- <-]; left; auto|].
    destruct (continuation (byteVal c3)) eqn:C3; cbn [negb];
      [|intros [= <- <-]; left; auto].
    apply continuation_range in C3. rewrite decode4_val.
    intros [= <- <-]. right.
    destruct (encode_decoded_4 c0 c1 c2 c3 H0 A C2 C3) as (Hv & Hl & He).
    rewrite He. auto.
Qed.

(** *** Ranging over a string *)

Lemma length_skip n s : String.length (skip n s) = (String.length s - n)%nat.
Proof.
  revert s. induction n as [|n IH]; intros [|c t]; cbn [skip String.length];
    try rewrite IH; lia.
Qed.

Lemma take_skip n s : take n s ++ skip n s = s.
Proof.
  revert s. induction n as [|n IH]; intros [|c t]; cbn [take skip append];
    try rewrite IH; reflexivity.
Qed.

Lemma skip_app a t : skip (String.length a) (a ++ t) = t.
Proof. induction a as [|c a IH]; cbn [String.length skip append]; auto. Qed.

Lemma take_app a t : take (String.length a) (a ++ t) = a.
Proof.
  induction a as [|c a IH]; cbn [String.length take append];
    [destruct t; reflexivity|rewrite IH; reflexivity].
Qed.

Lemma append_assoc (a b c : string) : (a ++ b) ++ c = a ++ b ++ c.
Proof. induction a as [|x a IH]; cbn [append]; [reflexivity|now rewrite IH]. Qed.

Lemma AppendRune_length r :
  ValidRune r = true -> Z.of_nat (String.length (AppendRune r)) = RuneLen r.
Proof.
  intros Hv. rewrite (RuneLen_valid r Hv). pose proof Hv as Hr.
  apply ValidRune_range in Hr.
  destruct (Z.leb_spec r 0x7F); [rewrite AppendRune_1 by lia; reflexivity|].
  destruct (Z.leb_spec r 0x7FF); [rewrite AppendRune_2 by lia; reflexivity|].
  destruct (Z.leb_spec r 0xFFFF);
    [rewrite AppendRune_3 by (try exact Hv; lia); reflexivity|].
  rewrite AppendRune_4 by (unfold MaxRune; lia). reflexivity.
Qed.

(** The decoded rune is a scalar value, and the width is between one
    byte and what is left of the string. *)
Lemma Decode_valid s c w :
  s <> EmptyString -> DecodeRuneInString s = (c, w) -> ValidRune c = true.
Proof.
  intros Hs Hd. destruct (Decode_cases s c w Hs Hd) as [[-> _]|[Hv _]];
    [reflexivity|exact Hv].
Qed.

Lemma Decode_exact s c w :
  s <> EmptyString -> DecodeRuneInString s = (c, w) ->
  negb ((c =? RuneError) && (w =? 1)%nat) = true ->
  RuneLen c = Z.of_nat w /\ take w s = AppendRune c.
Proof.
  intros Hs Hd Hn. destruct (Decode_cases s c w Hs Hd) as [[-> ->]|(Hv & Hl & He)];
    [discriminate|].
  split; [exact Hl|].
  pose proof (AppendRune_length c Hv) as Hlen.
  assert (w = String.length (AppendRune c)) as Hw by lia.
  rewrite He, Hw at 1. apply take_app.
Qed.

Lemma Decode_width s c w :
  s <> EmptyString -> DecodeRuneInString s = (c, w) ->
  (1 <= w <= String.length s)%nat.
Proof.
  intros Hs Hd. destruct (Decode_cases s c w Hs Hd) as [[-> ->]|(Hv & Hl & He)].
  - destruct s; [congruence|cbn; lia].
  - pose proof (AppendRune_length c Hv) as Hlen.
    assert (String.length s
            = (String.length (AppendRune c) + String.length (skip w s))%nat) as E.
    { rewrite He at 1. clear. induction (AppendRune c); cbn; auto. }
    rewrite length_skip in E.
    rewrite (RuneLen_valid c Hv) in Hl, Hlen. revert Hl Hlen. ztest; lia.
Qed.

Lemma String_nonempty c t : String c t <> EmptyString.
Proof. discriminate. Qed.

Lemma rangeFrom_fuel f1 f2 s :
  (String.length s <= f1)%nat -> (String.length s <= f2)%nat ->
  rangeFrom f1 s = rangeFrom f2 s.
Proof.
  revert f2 s. induction f1 as [|f1 IH]; intros [|f2] [|c0 t0] H1 H2;
    try reflexivity; try (cbn in *; lia).
  cbn [rangeFrom].
  destruct (DecodeRuneInString (String c0 t0)) as [c w] eqn:D.
  pose proof (Decode_width _ _ _ (String_nonempty c0 t0) D) as Hw.
  f_equal. apply IH; rewrite length_skip; cbn [String.length] in *; lia.
Qed.

Lemma rangeString_cons s c w :
  s <> EmptyString -> DecodeRuneInString s = (c, w) ->
  rangeString s = (c, w) :: rangeString (skip w s).
Proof.
  intros Hs Hd. unfold rangeString.
  pose proof (Decode_width _ _ _ Hs Hd) as Hw.
  destruct s as [|c0 t0]; [congruence|].
  cbn [String.length rangeFrom]. rewrite Hd. f_equal.
  apply rangeFrom_fuel; rewrite length_skip; cbn [String.length] in *; lia.
Qed.

Lemma runes_cons s c w :
  s <> EmptyString -> DecodeRuneInString s = (c, w) ->
  runes s = c :: runes (skip w s).
Proof.
  intros Hs Hd. unfold runes. rewrite (rangeString_cons s c w Hs Hd). reflexivity.
Qed.

(** An induction principle that follows the [range] loop. *)
Lemma range_ind (P : string -> Prop) :
  P EmptyString ->
  (forall s c w, s <> EmptyString -> DecodeRuneInString s = (c, w) ->
                 P (skip w s) -> P s) ->
  forall s, P s.
Proof.
  intros H0 Hstep s.
  remember (String.length s) as n eqn:Hn.
  revert s Hn. induction n as [n IH] using lt_wf_ind. intros s Hn.
  destruct s as [|c0 t0]; [exact H0|].
  destruct (DecodeRuneInString (String c0 t0)) as [c w] eqn:D.
  pose proof (Decode_width _ _ _ (String_nonempty c0 t0) D) as Hw.
  apply (Hstep _ c w); [discriminate|exact D|].
  apply (IH (String.length (skip w (String c0 t0)))); [|reflexivity].
  rewrite length_skip. lia.
Qed.

Lemma runes_valid s : Forall (fun c => ValidRune c = true) (runes s).
Proof.
  induction s as [|s c w Hs Hd IH] using range_ind; [constructor|].
  rewrite (runes_cons s c w Hs Hd). constructor; [|exact IH].
  exact (Decode_valid s c w Hs Hd).
Qed.

Lemma AppendRune_nonempty r : AppendRune r <> EmptyString.
Proof.
  unfold AppendRune. cbv zeta.
  repeat match goal with
         | |- context [if ?b then _ else _] => destruct b
         end; discriminate.
Qed.

Lemma runes_AppendRune r t :
  ValidRune r = true -> runes (AppendRune r ++ t) = r :: runes t.
Proof.
  intros Hv.
  pose proof (Decode_AppendRune r t Hv) as Hd.
  pose proof (AppendRune_length r Hv) as Hl.
  assert (AppendRune r ++ t <> EmptyString) as Hne.
  { pose proof (AppendRune_nonempty r). destruct (AppendRune r);
      [congruence|discriminate]. }
  rewrite (runes_cons _ _ _ Hne Hd).
  f_equal. rewrite <- Hl, Nat2Z.id, skip_app. reflexivity.
Qed.

(** *** [strings.Map], rune by rune *)


Lemma mapRest_spec mapping fuel s :
  (String.length s <= fuel)%nat ->
  mapRest fuel mapping s = joinAll (map (writeMapped mapping) (runes s)).
Proof.
  revert s. induction fuel as [|fuel IH]; intros [|c0 t0] Hf;
    try reflexivity; try (cbn in Hf; lia).
  cbn [mapRest].
  destruct (DecodeRuneInString (String c0 t0)) as [c w] eqn:D.
  pose proof (Decode_width _ _ _ (String_nonempty c0 t0) D) as Hw.
  rewrite (runes_cons _ _ _ (String_nonempty c0 t0) D).
  cbn [map joinAll fold_right]. fold (joinAll (map (writeMapped mapping)
    (runes (skip w (String c0 t0))))).
  rewrite <- IH by (rewrite length_skip; cbn [String.length] in *; lia).
  f_equal. unfold writeMapped, RuneSelf.
  destruct (Z.leb_spec 0 (mapping c)); [|reflexivity].
  destruct (Z.ltb_spec (mapping c) 0x80); [|reflexivity].
  rewrite AppendRune_1 by lia. reflexivity.
Qed.

Lemma mapFirst_spec mapping fuel s :
  (String.length s <= fuel)%nat ->
  match mapFirst fuel mapping s with
  | None => s
  | Some (b, rest) => b ++ mapRest (String.length rest) mapping rest
  end = joinAll (map (writeMapped mapping) (runes s)).
Proof.
  revert s. induction fuel as [|fuel IH]; intros [|c0 t0] Hf;
    try reflexivity; try (cbn in Hf; lia).
  cbn [mapFirst].
  destruct (DecodeRuneInString (String c0 t0)) as [c w] eqn:D.
  pose proof (Decode_width _ _ _ (String_nonempty c0 t0) D) as Hw.
  pose proof (Decode_valid _ _ _ (String_nonempty c0 t0) D) as Hv.
  rewrite (runes_cons _ _ _ (String_nonempty c0 t0) D).
  set (s := String c0 t0) in *.
  cbn [map joinAll fold_right].
  fold (joinAll (map (writeMapped mapping) (runes (skip w s)))).
  assert (String.length (skip w s) <= fuel)%nat as Hlen
      by (rewrite length_skip; subst s; cbn [String.length] in *; lia).
  (* the two [continue] cases: the bytes of an unchanged rune are kept *)
  assert (mapping c = c ->
          negb ((c =? RuneError) && (w =? 1)%nat) = true ->
          match
            match mapFirst fuel mapping (skip w s) with
            | Some (b, rest) => Some (take w s ++ b, rest)
            | None => None
            end
          with
          | Some (b, rest) => b ++ mapRest (String.length rest) mapping rest
          | None => s
          end = writeMapped mapping c
                ++ joinAll (map (writeMapped mapping) (runes (skip w s))))
    as Hcontinue.
  { intros Hr Hn.
    destruct (Decode_exact _ _ _ (String_nonempty c0 t0) D Hn) as [_ Ht].
    fold s in Ht.
    assert (writeMapped mapping c = take w s) as ->.
    { unfold writeMapped. rewrite Hr, Ht.
      apply ValidRune_range in Hv.
      destruct (Z.leb_spec 0 c); [reflexivity|lia]. }
    specialize (IH (skip w s) Hlen).
    destruct (mapFirst fuel mapping (skip w s)) as [[b rest]|].
    - rewrite append_assoc, IH. reflexivity.
    - rewrite <- IH. symmetry. apply take_skip. }
  (* the [break] case: the mapped rune is written, the second loop
     takes over behind the rune *)
  assert (forall width, Z.to_nat width = w ->
          (if 0 <=? mapping c then AppendRune (mapping c) else EmptyString)
          ++ mapRest (String.length (skip (Z.to_nat width) s)) mapping
               (skip (Z.to_nat width) s)
          = writeMapped mapping c
            ++ joinAll (map (writeMapped mapping) (runes (skip w s))))
    as Hbreak.
  { intros width ->. rewrite mapRest_spec by lia. reflexivity. }
  destruct (Z.eqb_spec (mapping c) c) as [Hr|Hr];
    destruct (Z.eqb_spec c RuneError) as [Hc|Hc]; cbn [andb negb].
  - destruct (Z.eqb_spec (Z.of_nat w) 1) as [Hw1|Hw1]; cbn [andb negb].
    + apply Hbreak. lia.
    + apply Hcontinue; [exact Hr|].
      destruct (Nat.eqb_spec w 1); [lia|]. apply negb_true_iff, andb_false_r.
  - apply Hcontinue; [exact Hr|].
    destruct (Z.eqb_spec c RuneError); [contradiction|reflexivity].
  - rewrite andb_false_r. apply Hbreak. lia.
  - apply Hbreak.
    destruct (Decode_exact _ _ _ (String_nonempty c0 t0) D) as [Hl _].
    + destruct (Z.eqb_spec c RuneError); [contradiction|reflexivity].
    + lia.
Qed.

(** [strings.Map] writes, for each rune of [s] in order, the encoding of
    its image, or nothing when the image is negative. *)
Lemma Map_spec mapping s :
  Map mapping s = joinAll (map (writeMapped mapping) (runes s)).
Proof. unfold Map. apply mapFirst_spec. lia. Qed.

(** ** The credential normaliser *)

Lemma joinAll_cons a l : joinAll (a :: l) = a ++ joinAll l.
Proof. reflexivity. Qed.

Lemma runes_joinAll l :
  Forall (fun c => ValidRune c = true) l ->
  runes (joinAll (map AppendRune l)) = l.
Proof.
  induction 1 as [|c l Hc Hl IH]; [reflexivity|].
  cbn [map]. rewrite joinAll_cons, runes_AppendRune by exact Hc.
  now rewrite IH.
Qed.

Lemma ValidString_join s :
  ValidString s = true -> joinAll (map AppendRune (runes s)) = s.
Proof.
  induction s as [|s c w Hs Hd IH] using range_ind; [reflexivity|].
  unfold ValidString. rewrite (rangeString_cons s c w Hs Hd).
  cbn [forallb fst snd]. intros Hv. apply andb_true_iff in Hv as [Hcw Hv].
  rewrite (runes_cons s c w Hs Hd). cbn [map]. rewrite joinAll_cons.
  rewrite IH by exact Hv.
  destruct (Decode_exact s c w Hs Hd Hcw) as [_ <-]. apply take_skip.
Qed.

(** [sanitizeKey] writes the encodings of the runes of [k] that are not
    spaces, in order. *)
Lemma sanitizeKey_writes k :
  sanitizeKey k = joinAll (map AppendRune (filter notSpace (runes k))).
Proof.
  unfold sanitizeKey. rewrite Map_spec.
  induction (runes_valid k) as [|c l Hc Hl IH]; [reflexivity|].
  cbn [map filter]. rewrite joinAll_cons, IH.
  unfold writeMapped, notSpace. apply ValidRune_range in Hc.
  destruct (IsSpace c); cbn [negb].
  - reflexivity.
  - destruct (Z.leb_spec 0 c); [reflexivity|lia].
Qed.

Lemma filter_valid (f : rune -> bool) l :
  Forall (fun c => ValidRune c = true) l ->
  Forall (fun c => ValidRune c = true) (filter f l).
Proof.
  induction 1 as [|c l Hc Hl IH]; cbn [filter]; [constructor|].
  destruct (f c); [constructor|]; assumption.
Qed.

Lemma filter_all {A} (f : A -> bool) (l : list A) :
  forallb f l = true -> filter f l = l.
Proof.
  induction l as [|a l IH]; cbn [forallb filter]; [reflexivity|].
  intros H. apply andb_true_iff in H as [-> H]. now rewrite IH.
Qed.

Lemma forallb_filter {A} (f : A -> bool) (l : list A) :
  forallb f (filter f l) = true.
Proof.
  induction l as [|a l IH]; cbn [filter]; [reflexivity|].
  destruct (f a) eqn:E; [cbn [forallb]; now rewrite E|exact IH].
Qed.

Lemma runes_sanitizeKey k : runes (sanitizeKey k) = filter notSpace (runes k).
Proof.
  rewrite sanitizeKey_writes. apply runes_joinAll, filter_valid, runes_valid.
Qed.




(** C10.  [sanitizeKey] is idempotent. *)
Theorem sanitizeKey_idempotent (k : string) :
  sanitizeKey (sanitizeKey k) = sanitizeKey k.
Proof.
  rewrite (sanitizeKey_writes (sanitizeKey k)), runes_sanitizeKey.
  rewrite (filter_all notSpace (filter notSpace (runes k)))
    by apply forallb_filter.
  symmetry. apply sanitizeKey_writes.
Qed.

(** ** The requester and its retry wrapper *)

Ltac run := unfold bind, ret, emit, ask in *; cbn beta iota zeta in *.

Lemma Contains_unavailable s :
  Contains ("API unavailable: " ++ s) "deadline exceeded"
  = Contains s "deadline exceeded".
Proof. reflexivity. Qed.

Lemma Contains_client_error s :
  Contains ("API returned error " ++ s) "deadline exceeded"
  = Contains s "deadline exceeded".
Proof. reflexivity. Qed.

Section Requester.

Variable env : Env.

(** [doRequest] makes no round trip when the request cannot be built,
    and one otherwise. *)
Lemma doRequest_eq url auth w :
  doRequest env url auth w =
  match newRequestErr env url with
  | Some err => (inr err, w)
  | None =>
      (match clientDo env w (newRequest url auth) with
       | inl err => inr err
       | inr resp =>
           if 500 <=? StatusCode resp then
             inr (errorsNew ("API unavailable: " ++ Status resp))
           else if 400 <=? StatusCode resp then
             inr (errorsNew ("API returned error " ++ Status resp))
           else match Body resp with
                | inr err => inr err
                | inl body => inl body
                end
       end, (w ++ [EvRequest (newRequest url auth)])%list)
  end.
Proof.
  unfold doRequest. destruct (newRequestErr env url); [reflexivity|]. run.
  destruct (clientDo env w (newRequest url auth)) as [err|resp]; [reflexivity|].
  destruct (500 <=? StatusCode resp); [reflexivity|].
  destruct (400 <=? StatusCode resp); [reflexivity|].
  destruct (Body resp); reflexivity.
Qed.

(** One turn of the loop of [doRequestWithRetry]: the back-off sleep,
    unless this is the first attempt, then the attempt. *)
Lemma retryLoop_step remaining attempt lastErr url auth w :
  retryLoop env (S remaining) attempt lastErr url auth w =
  let delay := Z.shiftl 1 attempt * second in
  let try w0 :=
    match doRequest env url auth w0 with
    | (inl body, w1) => (inl body, w1)
    | (inr err, w1) =>
        if isTimeout err then
          retryLoop env remaining (wrapInt (attempt + 1)) (Some err) url auth w1
        else (inr err, w1)
    end in
  if 0 <? attempt then
    match ctxDoneWithin env w delay with
    | Some cerr => (inr cerr, w)
    | None => try (w ++ [EvSleep delay])%list
    end
  else try w.
Proof.
  cbn [retryLoop]. unfold isTimeout. run.
  destruct (0 <? attempt).
  - destruct (ctxDoneWithin env w (Z.shiftl 1 attempt * second)); [reflexivity|].
    destruct (doRequest env url auth _) as [[body|err] w1]; [reflexivity|].
    destruct (Contains (Error err) "deadline exceeded"); reflexivity.
  - destruct (doRequest env url auth w) as [[body|err] w1]; [reflexivity|].
    destruct (Contains (Error err) "deadline exceeded"); reflexivity.
Qed.

(** The first attempt is made at once; its success ends the loop. *)
Lemma doRequestWithRetry_success url auth w body w1 :
  doRequest env url auth w = (inl body, w1) ->
  doRequestWithRetry env url auth w = (inl body, w1).
Proof.
  intros H. unfold doRequestWithRetry. rewrite retryLoop_step.
  cbv beta zeta. change (0 <? 0) with false. cbv beta iota. rewrite H. reflexivity.
Qed.

(** An error without the deadline marker ends the loop too. *)
Lemma doRequestWithRetry_fatal url auth w err w1 :
  doRequest env url auth w = (inr err, w1) ->
  isTimeout err = false ->
  doRequestWithRetry env url auth w = (inr err, w1).
Proof.
  intros H Ht. unfold doRequestWithRetry. rewrite retryLoop_step.
  cbv beta zeta. change (0 <? 0) with false. cbv beta iota. rewrite H, Ht. reflexivity.
Qed.

Lemma doRequestWithRetry_served url auth w body :
  newRequestErr env url = None ->
  Serves env (newRequest url auth) body ->
  doRequestWithRetry env url auth w
  = (inl body, (w ++ [EvRequest (newRequest url auth)])%list).
Proof.
  intros Hu Hs. apply doRequestWithRetry_success.
  rewrite doRequest_eq, Hu.
  destruct (Hs w) as (code & status & -> & Hc). cbn [StatusCode Body].
  destruct (Z.leb_spec 500 code); [lia|].
  destruct (Z.leb_spec 400 code); [lia|]. reflexivity.
Qed.

End Requester.

Lemma sleeps_app w1 w2 : sleeps (w1 ++ w2)%list = (sleeps w1 ++ sleeps w2)%list.
Proof. apply flat_map_app. Qed.

Lemma doRequest_sleeps env url auth w :
  sleeps (snd (doRequest env url auth w)) = sleeps w.
Proof.
  rewrite doRequest_eq. destruct (newRequestErr env url); [reflexivity|].
  cbn [snd]. rewrite sleeps_app. cbn. apply app_nil_r.
Qed.

Section RetryProperties.

Variable env : Env.

(** The loop never makes more round trips than it has turns left, and
    all of them carry the same request. *)
Lemma retryLoop_requests remaining attempt lastErr url auth w :
  exists n, (n <= remaining)%nat /\
    requests (snd (retryLoop env remaining attempt lastErr url auth w))
    = (requests w ++ repeat (newRequest url auth) n)%list.
Proof.
  revert attempt lastErr w.
  assert (forall w ev, (forall r, ev <> EvRequest r) ->
                       requests (w ++ [ev])%list = requests w) as Hskip.
  { intros w ev Hev. unfold requests. rewrite flat_map_app. cbn [flat_map].
    destruct ev; try (now rewrite !app_nil_r). now destruct (Hev req). }
  induction remaining as [|remaining IH]; intros attempt lastErr w.
  - exists 0%nat. split; [lia|]. cbn [retryLoop repeat].
    rewrite app_nil_r. destruct lastErr; reflexivity.
  - rewrite retryLoop_step. cbv beta zeta.
    assert (forall w0, exists n, (n <= S remaining)%nat /\
              requests (snd (match doRequest env url auth w0 with
                             | (inl body, w1) => (inl body, w1)
                             | (inr err, w1) =>
                                 if isTimeout err then
                                   retryLoop env remaining (wrapInt (attempt + 1))
                                             (Some err) url auth w1
                                 else (inr err, w1)
                             end))
              = (requests w0 ++ repeat (newRequest url auth) n)%list) as Htry.
    { intros w0. rewrite doRequest_eq.
      destruct (newRequestErr env url) as [e|].
      - destruct (isTimeout e).
        + destruct (IH (wrapInt (attempt + 1)) (Some e) w0) as (n & Hn & E).
          exists n. split; [lia|exact E].
        + exists 0%nat. split; [lia|]. cbn [snd repeat]. now rewrite app_nil_r.
      - set (w1 := (w0 ++ [EvRequest (newRequest url auth)])%list).
        assert (requests w1 = (requests w0 ++ [newRequest url auth])%list) as Ew1.
        { unfold w1, requests. rewrite flat_map_app. reflexivity. }
        match goal with
        | |- context [match ?x with inl _ => _ | inr _ => _ end] =>
            destruct x as [body|err] eqn:Ex
        end.
        + exists 1%nat. split; [lia|]. cbn [snd repeat]. exact Ew1.
        + destruct (isTimeout err).
          * destruct (IH (wrapInt (attempt + 1)) (Some err) w1) as (n & Hn & E).
            exists (S n). split; [lia|]. rewrite E, Ew1, <- app_assoc.
            reflexivity.
          * exists 1%nat. split; [lia|]. cbn [snd repeat]. exact Ew1. }
    destruct (0 <? attempt); [|apply Htry].
    destruct (ctxDoneWithin env w (Z.shiftl 1 attempt * second)).
    + exists 0%nat. split; [lia|]. cbn [snd repeat]. now rewrite app_nil_r.
    + destruct (Htry (w ++ [EvSleep (Z.shiftl 1 attempt * second)])%list)
        as (n & Hn & E).
      exists n. split; [exact Hn|]. rewrite E, Hskip; [reflexivity|discriminate].
Qed.

(** At most three attempts, whatever the collaborators do. *)
Lemma doRequestWithRetry_at_most_3 url auth w :
  exists n, (n <= 3)%nat /\
    requests (snd (doRequestWithRetry env url auth w))
    = (requests w ++ repeat (newRequest url auth) n)%list.
Proof. apply retryLoop_requests. Qed.

(** C5, what the code does.  [doRequestWithRetry] tells a timeout by
    the text of the error: it goes on to another attempt exactly when
    that text holds "deadline exceeded".  At each of the three attempts
    an error without the marker is returned as it is, at once, with no
    further sleep or round trip, whatever retries are left; a completed
    back-off sleep has always been preceded by an error with the marker;
    so a 4xx response whose status line is free of the marker, such as
    404 Not Found, costs exactly one attempt.  But the text of a 4xx
    error holds the status line of the response, so a 4xx response whose
    status line holds the marker is taken for a timeout and retried:
    three attempts, with the sleeps of 2s and 4s between them. *)
Theorem doRequestWithRetry_retries_only_timeouts (url auth : string) (w : World) :
  let attempt := EvRequest (newRequest url auth) in
  (forall err w1,
      doRequest env url auth w = (inr err, w1) ->
      isTimeout err = false ->
      doRequestWithRetry env url auth w = (inr err, w1))
  /\ (forall e1 w1 err w2,
         doRequest env url auth w = (inr e1, w1) ->
         isTimeout e1 = true ->
         ctxDoneWithin env w1 (2 * second) = None ->
         doRequest env url auth (w1 ++ [EvSleep (2 * second)])%list
         = (inr err, w2) ->
         isTimeout err = false ->
         doRequestWithRetry env url auth w = (inr err, w2))
  /\ (forall e1 w1 e2 w2 err w3,
         doRequest env url auth w = (inr e1, w1) ->
         isTimeout e1 = true ->
         ctxDoneWithin env w1 (2 * second) = None ->
         doRequest env url auth (w1 ++ [EvSleep (2 * second)])%list
         = (inr e2, w2) ->
         isTimeout e2 = true ->
         ctxDoneWithin env w2 (4 * second) = None ->
         doRequest env url auth (w2 ++ [EvSleep (4 * second)])%list
         = (inr err, w3) ->
         isTimeout err = false ->
         doRequestWithRetry env url auth w = (inr err, w3))
  /\ (sleeps (snd (doRequestWithRetry env url auth w)) <> sleeps w ->
      exists e1 w1,
        doRequest env url auth w = (inr e1, w1) /\ isTimeout e1 = true)
  /\ (sleeps (snd (doRequestWithRetry env url auth w))
      = (sleeps w ++ [2 * second; 4 * second])%list ->
      exists e1 w1 e2 w2,
        doRequest env url auth w = (inr e1, w1) /\ isTimeout e1 = true
        /\ doRequest env url auth (w1 ++ [EvSleep (2 * second)])%list
           = (inr e2, w2)
        /\ isTimeout e2 = true)
  /\ (forall resp,
         newRequestErr env url = None ->
         clientDo env w (newRequest url auth) = inr resp ->
         400 <= StatusCode resp < 500 ->
         Contains (Status resp) "deadline exceeded" = false ->
         doRequestWithRetry env url auth w
         = (inr (errorsNew ("API returned error " ++ Status resp)),
            (w ++ [attempt])%list))
  /\ (forall resp : World -> Response,
         newRequestErr env url = None ->
         (forall w', clientDo env w' (newRequest url auth) = inr (resp w')) ->
         (forall w', 400 <= StatusCode (resp w') < 500) ->
         (forall w', Contains (Status (resp w')) "deadline exceeded" = true) ->
         (forall w' d, ctxDoneWithin env w' d = None) ->
         let w4 := (w ++ [attempt; EvSleep (2 * second);
                          attempt; EvSleep (4 * second)])%list in
         doRequestWithRetry env url auth w
         = (inr (wrapError "después de 3 intentos: "
                   (errorsNew ("API returned error " ++ Status (resp w4)))),
            (w4 ++ [attempt])%list)).
Proof.
  intros attempt.
  split; [intros err w1 H Ht; now apply doRequestWithRetry_fatal|].
  split.
  { intros e1 w1 err w2 H1 T1 C1 H2 T2. unfold doRequestWithRetry.
    rewrite retryLoop_step. cbv beta zeta.
    change (0 <? 0) with false. cbv beta iota. rewrite H1, T1.
    rewrite retryLoop_step. cbv beta zeta.
    change (0 <? wrapInt (0 + 1)) with true. cbv beta iota.
    change (Z.shiftl 1 (wrapInt (0 + 1))) with 2.
    now rewrite C1, H2, T2. }
  split.
  { intros e1 w1 e2 w2 err w3 H1 T1 C1 H2 T2 C2 H3 T3. unfold doRequestWithRetry.
    rewrite retryLoop_step. cbv beta zeta.
    change (0 <? 0) with false. cbv beta iota. rewrite H1, T1.
    rewrite retryLoop_step. cbv beta zeta.
    change (0 <? wrapInt (0 + 1)) with true. cbv beta iota.
    change (Z.shiftl 1 (wrapInt (0 + 1))) with 2.
    rewrite C1, H2, T2.
    rewrite retryLoop_step. cbv beta zeta.
    change (0 <? wrapInt (wrapInt (0 + 1) + 1)) with true. cbv beta iota.
    change (Z.shiftl 1 (wrapInt (wrapInt (0 + 1) + 1))) with 4.
    now rewrite C2, H3, T3. }
  split.
  { unfold doRequestWithRetry. rewrite retryLoop_step. cbv beta zeta.
    change (0 <? 0) with false. cbv beta iota.
    pose proof (doRequest_sleeps env url auth w) as E.
    destruct (doRequest env url auth w) as [[body|e1] w1]; cbn [snd] in E.
    - intros H. now destruct H.
    - destruct (isTimeout e1) eqn:T1.
      + intros _. now exists e1, w1.
      + intros H. now destruct H. }
  split.
  { unfold doRequestWithRetry. rewrite retryLoop_step. cbv beta zeta.
    change (0 <? 0) with false. cbv beta iota.
    assert (forall l : list Z, l <> (l ++ [2 * second; 4 * second])%list) as Hne.
    { intros l E. apply (f_equal (@length Z)) in E. rewrite length_app in E.
      cbn [length] in E. lia. }
    assert (forall l : list Z,
               (l ++ [2 * second])%list <> (l ++ [2 * second; 4 * second])%list)
      as Hne1.
    { intros l E. apply (f_equal (@length Z)) in E. rewrite !length_app in E.
      cbn [length] in E. lia. }
    pose proof (doRequest_sleeps env url auth w) as E1.
    destruct (doRequest env url auth w) as [[body|e1] w1]; cbn [snd] in E1.
    { cbn [snd]. rewrite E1. intros H. now apply Hne in H. }
    destruct (isTimeout e1) eqn:T1;
      [|cbn [snd]; rewrite E1; intros H; now apply Hne in H].
    rewrite retryLoop_step. cbv beta zeta.
    change (0 <? wrapInt (0 + 1)) with true. cbv beta iota.
    change (Z.shiftl 1 (wrapInt (0 + 1))) with 2.
    destruct (ctxDoneWithin env w1 (2 * second));
      [cbn [snd]; rewrite E1; intros H; now apply Hne in H|].
    pose proof (doRequest_sleeps env url auth (w1 ++ [EvSleep (2 * second)])%list)
      as E2.
    rewrite sleeps_app, E1 in E2. cbn [sleeps flat_map app] in E2.
    destruct (doRequest env url auth (w1 ++ [EvSleep (2 * second)])%list)
      as [[body|e2] w2] eqn:D2; cbn [snd] in E2.
    { cbn [snd]. rewrite E2. intros H. now apply Hne1 in H. }
    destruct (isTimeout e2) eqn:T2;
      [|cbn [snd]; rewrite E2; intros H; now apply Hne1 in H].
    intros _. now exists e1, w1, e2, w2. }
  split.
  { intros resp Hu Hd Hc Hs. apply doRequestWithRetry_fatal.
    + rewrite doRequest_eq, Hu, Hd.
      destruct (Z.leb_spec 500 (StatusCode resp)); [lia|].
      destruct (Z.leb_spec 400 (StatusCode resp)); [reflexivity|lia].
    + unfold isTimeout. cbn [Error]. rewrite Contains_client_error. exact Hs. }
  intros resp Hu Hd Hc Hs Hctx w4.
  assert (forall w0, doRequest env url auth w0
                     = (inr (errorsNew ("API returned error " ++ Status (resp w0))),
                        (w0 ++ [attempt])%list)) as Hreq.
  { intros w0. rewrite doRequest_eq, Hu, Hd. specialize (Hc w0).
    destruct (Z.leb_spec 500 (StatusCode (resp w0))); [lia|].
    destruct (Z.leb_spec 400 (StatusCode (resp w0))); [reflexivity|lia]. }
  assert (forall w0, isTimeout (errorsNew ("API returned error "
                                           ++ Status (resp w0))) = true) as Ht.
  { intros w0. unfold isTimeout. cbn [Error].
    rewrite Contains_client_error. apply Hs. }
  unfold doRequestWithRetry.
  rewrite retryLoop_step. cbv beta zeta.
  change (0 <? 0) with false. cbv beta iota. rewrite Hreq, Ht.
  rewrite retryLoop_step. cbv beta zeta.
  change (0 <? wrapInt (0 + 1)) with true. cbv beta iota.
  rewrite Hctx, Hreq, Ht.
  rewrite retryLoop_step. cbv beta zeta.
  change (0 <? wrapInt (wrapInt (0 + 1) + 1)) with true. cbv beta iota.
  rewrite Hctx, Hreq, Ht.
  change (Z.shiftl 1 (wrapInt (0 + 1))) with 2.
  change (Z.shiftl 1 (wrapInt (wrapInt (0 + 1) + 1))) with 4.
  cbn [retryLoop]. unfold ret, w4. rewrite <- !app_assoc. reflexivity.
Qed.

(** C3, as amended.  A response with status 500 or more is turned into
    an error of its own, "API unavailable: <status>", but the retry
    wrapper treats it like any error without the deadline marker: it is
    returned after the one attempt, and nothing is retried. *)
Theorem doRequestWithRetry_5xx_not_retried (url auth : string) (w : World)
    (resp : Response) :
  newRequestErr env url = None ->
  clientDo env w (newRequest url auth) = inr resp ->
  500 <= StatusCode resp ->
  Contains (Status resp) "deadline exceeded" = false ->
  doRequest env url auth w
  = (inr (errorsNew ("API unavailable: " ++ Status resp)),
     (w ++ [EvRequest (newRequest url auth)])%list)
  /\ doRequestWithRetry env url auth w
     = (inr (errorsNew ("API unavailable: " ++ Status resp)),
        (w ++ [EvRequest (newRequest url auth)])%list).
Proof.
  intros Hu Hd Hc Hs.
  assert (doRequest env url auth w
          = (inr (errorsNew ("API unavailable: " ++ Status resp)),
             (w ++ [EvRequest (newRequest url auth)])%list)) as H.
  { rewrite doRequest_eq, Hu, Hd.
    destruct (Z.leb_spec 500 (StatusCode resp)); [reflexivity|lia]. }
  split; [exact H|]. apply doRequestWithRetry_fatal; [exact H|].
  unfold isTimeout. cbn [Error]. rewrite Contains_unavailable. exact Hs.
Qed.

(** C4, what the code does.  With a requester whose every attempt fails
    with a deadline error, and a context that is not cancelled, the
    wrapper makes three attempts, sleeps before the second and before the
    third and not after the last, and returns the last error wrapped.
    The two sleeps last [1<<1] and [1<<2] seconds: 2s and 4s. *)
Theorem doRequestWithRetry_timeout_backoff (url auth : string) (w : World)
    (timeoutErr : World -> error) :
  newRequestErr env url = None ->
  (forall w', clientDo env w' (newRequest url auth) = inl (timeoutErr w')) ->
  (forall w', isTimeout (timeoutErr w') = true) ->
  (forall w' d, ctxDoneWithin env w' d = None) ->
  let attempt := EvRequest (newRequest url auth) in
  let w4 := (w ++ [attempt; EvSleep (2 * second);
                   attempt; EvSleep (4 * second)])%list in
  doRequestWithRetry env url auth w
  = (inr (wrapError "después de 3 intentos: " (timeoutErr w4)),
     (w4 ++ [attempt])%list).
Proof.
  intros Hu Hd Ht Hc attempt w4.
  assert (forall w0, doRequest env url auth w0
                     = (inr (timeoutErr w0), (w0 ++ [attempt])%list)) as Hreq.
  { intros w0. rewrite doRequest_eq, Hu, Hd. reflexivity. }
  unfold doRequestWithRetry.
  rewrite retryLoop_step. cbv beta zeta.
  change (0 <? 0) with false. cbv beta iota. rewrite Hreq, Ht.
  rewrite retryLoop_step. cbv beta zeta.
  change (0 <? wrapInt (0 + 1)) with true. cbv beta iota.
  rewrite Hc, Hreq, Ht.
  rewrite retryLoop_step. cbv beta zeta.
  change (0 <? wrapInt (wrapInt (0 + 1) + 1)) with true. cbv beta iota.
  rewrite Hc, Hreq, Ht.
  change (Z.shiftl 1 (wrapInt (0 + 1))) with 2.
  change (Z.shiftl 1 (wrapInt (wrapInt (0 + 1) + 1))) with 4.
  cbn [retryLoop]. unfold ret, w4. rewrite <- !app_assoc. reflexivity.
Qed.

End RetryProperties.

Lemma doRequestWithRetry_retries_only_timeouts_witness :
  let attempt := EvRequest (newRequest (scopeURL "c") "dXNlcjprZXk=") in
  doRequestWithRetry notFoundEnv (scopeURL "c") "dXNlcjprZXk=" []
  = (inr (errorsNew "API returned error 404 Not Found"), [attempt])
  /\ doRequestWithRetry lateNotFoundEnv (scopeURL "c") "dXNlcjprZXk=" []
     = (inr (errorsNew "API returned error 404 Not Found"),
        [attempt; EvSleep (2 * second); attempt])
  /\ doRequestWithRetry markedStatusEnv (scopeURL "c") "dXNlcjprZXk=" []
     = (inr (wrapError "después de 3 intentos: "
               (errorsNew "API returned error 404 deadline exceeded")),
        [attempt; EvSleep (2 * second); attempt; EvSleep (4 * second); attempt]).
Proof.
  cbv zeta. split; [|split].
  - apply (proj1 (proj2 (proj2 (proj2 (proj2 (proj2
             (doRequestWithRetry_retries_only_timeouts notFoundEnv
                (scopeURL "c") "dXNlcjprZXk=" []))))))
             (mkResponse 404 "404 Not Found" (inl EmptyString)));
      [reflexivity|reflexivity|cbn; lia|reflexivity].
  - apply (proj1 (proj2
             (doRequestWithRetry_retries_only_timeouts lateNotFoundEnv
                (scopeURL "c") "dXNlcjprZXk=" []))
             (errorsNew "context deadline exceeded")
             [EvRequest (newRequest (scopeURL "c") "dXNlcjprZXk=")]);
      reflexivity.
  - apply (proj2 (proj2 (proj2 (proj2 (proj2 (proj2
             (doRequestWithRetry_retries_only_timeouts markedStatusEnv
                (scopeURL "c") "dXNlcjprZXk=" []))))))
             (fun _ => mkResponse 404 "404 deadline exceeded" (inl EmptyString)));
      intros; try reflexivity. cbn; lia.
Defined.

(** C3 as stated fails: the server answers 503 and would do so again,
    yet the wrapper makes one attempt, not three. *)
Lemma unavailable_is_not_retried :
  let r := doRequestWithRetry unavailableEnv (programsURL 1) "dXNlcjprZXk=" [] in
  fst r = inr (errorsNew "API unavailable: 503 Service Unavailable")
  /\ length (requests (snd r)) = 1%nat
  /\ sleeps (snd r) = [].
Proof. cbv zeta. repeat split; reflexivity. Qed.

Lemma doRequestWithRetry_5xx_not_retried_witness :
  newRequestErr unavailableEnv (programsURL 1) = None
  /\ doRequestWithRetry unavailableEnv (programsURL 1) "dXNlcjprZXk=" []
     = (inr (errorsNew "API unavailable: 503 Service Unavailable"),
        [EvRequest (newRequest (programsURL 1) "dXNlcjprZXk=")]).
Proof.
  split; [reflexivity|].
  apply (doRequestWithRetry_5xx_not_retried unavailableEnv (programsURL 1)
           "dXNlcjprZXk=" []
           (mkResponse 503 "503 Service Unavailable" (inl EmptyString)));
    [reflexivity|reflexivity|cbn; lia|reflexivity].
Defined.

Lemma doRequestWithRetry_timeout_backoff_witness :
  let attempt := EvRequest (newRequest (programsURL 1) "dXNlcjprZXk=") in
  doRequestWithRetry timeoutEnv (programsURL 1) "dXNlcjprZXk=" []
  = (inr (wrapError "después de 3 intentos: "
            (errorsNew "context deadline exceeded")),
     [attempt; EvSleep 2000000000; attempt; EvSleep 4000000000; attempt]).
Proof.
  apply (doRequestWithRetry_timeout_backoff timeoutEnv (programsURL 1)
           "dXNlcjprZXk=" [] (fun _ => errorsNew "context deadline exceeded"));
    intros; reflexivity.
Defined.

(** ** The guarded decoder *)

Lemma safeUnmarshal_ok {T} (unmarshal : string -> UnmarshalResult T)
    (zero : T) data v w :
  unmarshal data = UnmarshalOk v ->
  safeUnmarshal unmarshal zero data w = ((None, v), w).
Proof. intros H. unfold safeUnmarshal. rewrite H. reflexivity. Qed.


Lemma safeUnmarshal_requests {T} (unmarshal : string -> UnmarshalResult T)
    (zero : T) data w :
  requests (snd (safeUnmarshal unmarshal zero data w)) = requests w.
Proof.
  unfold safeUnmarshal. destruct (unmarshal data); try reflexivity.
  run. cbn [snd]. unfold requests. rewrite flat_map_app. cbn [flat_map].
  now rewrite !app_nil_r.
Qed.

(** C6, what the code does.  When [json.Unmarshal] panics, the deferred
    function recovers the panic and logs it, and [safeUnmarshal] then
    returns its zero result, a nil error: the caller is told that the
    decoding succeeded and reads the target as the panic left it. *)
Theorem safeUnmarshal_recovers_to_nil {T : Type}
    (unmarshal : string -> UnmarshalResult T) (zero : T) (data : string)
    (r : panicValue) (v : T) (w : World) :
  unmarshal data = UnmarshalPanic r v ->
  safeUnmarshal unmarshal zero data w
  = ((None, v), (w ++ [EvLog (panicText r)])%list).
Proof.
  intros H. unfold safeUnmarshal. rewrite H. run. unfold panicText.
  destruct r; reflexivity.
Qed.

Lemma safeUnmarshal_recovers_to_nil_witness :
  safeUnmarshal (jsonUnmarshalPrograms panicEnv) zeroProgramsPage
    (programsURL 1) []
  = ((None, zeroProgramsPage),
     [EvLog "panic recuperado: runtime error: index out of range"]).
Proof.
  apply (safeUnmarshal_recovers_to_nil (jsonUnmarshalPrograms panicEnv)
           zeroProgramsPage (programsURL 1)
           (panicError (errorsNew "runtime error: index out of range"))).
  reflexivity.
Defined.

(** The consequence for [Fetch]: a panic while the first programs page
    is decoded ends the enumeration with no program processed and a nil
    error. *)
Lemma Fetch_reports_success_after_panic :
  Fetch panicEnv 1 "user:key" []
  = Some ((0, None),
          [EvRequest (newRequest (programsURL 1) "user:key");
           EvLog "panic recuperado: runtime error: index out of range"]).
Proof. reflexivity. Qed.

(** ** The fetcher *)

Lemma requests_app w1 w2 : requests (w1 ++ w2)%list = (requests w1 ++ requests w2)%list.
Proof. apply flat_map_app. Qed.

Lemma written_app w1 w2 : written (w1 ++ w2)%list = (written w1 ++ written w2)%list.
Proof. apply flat_map_app. Qed.

Lemma wrapInt_small z : - 2 ^ 63 <= z < 2 ^ 63 -> wrapInt z = z.
Proof. intros H. unfold wrapInt. rewrite Z.mod_small; lia. Qed.

Lemma wrapInt_range z : - 2 ^ 63 <= wrapInt z < 2 ^ 63.
Proof.
  unfold wrapInt. pose proof (Z.mod_pos_bound (z + 2 ^ 63) (2 ^ 64)). lia.
Qed.

Lemma wrapInt_add a b : wrapInt (wrapInt a + b) = wrapInt (a + b).
Proof.
  unfold wrapInt.
  replace ((a + 2 ^ 63) mod 2 ^ 64 - 2 ^ 63 + b + 2 ^ 63)
    with ((a + 2 ^ 63) mod 2 ^ 64 + b) by lia.
  replace (a + b + 2 ^ 63) with ((a + 2 ^ 63) + b) by lia.
  now rewrite Z.add_mod_idemp_l by lia.
Qed.

Lemma wrapInt_add_idem a b : wrapInt (wrapInt (a + b)) = wrapInt (a + b).
Proof. apply wrapInt_small, wrapInt_range. Qed.

Lemma printAssets_eq assets w :
  printAssets assets w
  = (tt, (w ++ map (fun asset => EvWrite (asset ++ newline)) assets)%list).
Proof.
  revert w. induction assets as [|asset rest IH]; intros w; cbn [printAssets map].
  - unfold ret. now rewrite app_nil_r.
  - run. rewrite IH, <- app_assoc. reflexivity.
Qed.

Section Fetcher.

Variable env : Env.
Variable auth : string.

(** One turn of the loop over the programs of a page. *)
Lemma rangePrograms_skip d rest processed w :
  offersBounties d = false ->
  rangePrograms env auth (d :: rest) processed w
  = rangePrograms env auth rest processed w.
Proof.
  intros H. cbn [rangePrograms]. unfold offersBounties in H. now rewrite H.
Qed.

Lemma rangePrograms_fetch d rest processed w :
  offersBounties d = true ->
  rangePrograms env auth (d :: rest) processed w
  = match fetchEligibleAssets env auth (handleOf d)
            (w ++ [EvPrint ("Procesando: " ++ handleOf d ++ newline)])%list with
    | (inr err, w1) =>
        (inr (processed, wrapError ("handle " ++ handleOf d ++ " failed: ") err),
         w1)
    | (inl assets, w1) =>
        rangePrograms env auth rest (wrapInt (processed + 1))
          (w1 ++ map (fun asset => EvWrite (asset ++ newline)) assets)%list
    end.
Proof.
  intros H. cbn [rangePrograms]. unfold offersBounties in H. rewrite H.
  cbn [negb]. run. fold (handleOf d).
  destruct (fetchEligibleAssets env auth (handleOf d) _) as [[assets|err] w1];
    [|reflexivity].
  now rewrite printAssets_eq.
Qed.




Lemma fetchEligibleAssets_decoded handle w body w1 pg :
  doRequestWithRetry env (scopeURL handle) auth w = (inl body, w1) ->
  jsonUnmarshalScope env body = UnmarshalOk pg ->
  fetchEligibleAssets env auth handle w
  = (inl (eligibleAssets (hackerOneScopePage.Data pg)), w1).
Proof.
  intros H Hd. unfold fetchEligibleAssets. run. rewrite H.
  now rewrite (safeUnmarshal_ok _ _ _ pg).
Qed.

(** Every round trip of [fetchEligibleAssets] asks for the scope of the
    handle it was given. *)
Lemma fetchEligibleAssets_requests handle w :
  exists n,
    requests (snd (fetchEligibleAssets env auth handle w))
    = (requests w ++ repeat (newRequest (scopeURL handle) auth) n)%list.
Proof.
  destruct (doRequestWithRetry_at_most_3 env (scopeURL handle) auth w)
    as (n & _ & E).
  exists n. unfold fetchEligibleAssets. run.
  destruct (doRequestWithRetry env (scopeURL handle) auth w) as [[body|err] w1];
    cbn [snd] in E; [|exact E].
  pose proof (safeUnmarshal_requests (jsonUnmarshalScope env) zeroScopePage
                body w1) as Hs.
  destruct (safeUnmarshal (jsonUnmarshalScope env) zeroScopePage body w1)
    as [[[e|] pg] w2]; cbn [snd] in *; now rewrite Hs.
Qed.

(** The round trips of the loop over a page are scope requests for
    programs of the page that offer bounties. *)
Lemma rangePrograms_requests data processed w :
  exists rs,
    requests (snd (rangePrograms env auth data processed w))
    = (requests w ++ rs)%list
    /\ Forall (fun r => exists d, In d data /\ offersBounties d = true
                        /\ r = newRequest (scopeURL (handleOf d)) auth) rs.
Proof.
  revert processed w. induction data as [|d rest IH]; intros processed w.
  - exists []. split; [cbn; now rewrite app_nil_r|constructor].
  - destruct (offersBounties d) eqn:Hd.
    + rewrite rangePrograms_fetch by exact Hd.
      destruct (fetchEligibleAssets_requests (handleOf d)
                  (w ++ [EvPrint ("Procesando: " ++ handleOf d ++ newline)])%list)
        as (n & E).
      rewrite requests_app in E. cbn [requests flat_map] in E.
      rewrite app_nil_r in E. fold (requests w) in E.
      assert (Forall (fun r => exists d0, In d0 (d :: rest)
                                /\ offersBounties d0 = true
                                /\ r = newRequest (scopeURL (handleOf d0)) auth)
                     (repeat (newRequest (scopeURL (handleOf d)) auth) n)) as Hn.
      { apply Forall_forall. intros r Hr. apply repeat_spec in Hr.
        exists d. split; [now left|]. now split. }
      destruct (fetchEligibleAssets env auth (handleOf d) _)
        as [[assets|err] w1]; cbn [snd] in E.
      * destruct (IH (wrapInt (processed + 1))
                     (w1 ++ map (fun asset => EvWrite (asset ++ newline)) assets)%list)
          as (rs & E' & Hrs).
        exists (repeat (newRequest (scopeURL (handleOf d)) auth) n ++ rs)%list.
        split.
        -- rewrite E', requests_app, E.
           assert (requests (map (fun asset => EvWrite (asset ++ newline)) assets)
                   = []) as ->.
           { clear. induction assets; [reflexivity|assumption]. }
           now rewrite app_nil_r, app_assoc.
        -- apply Forall_app. split; [exact Hn|].
           eapply Forall_impl; [|exact Hrs].
           intros r (d0 & Hin & Hb & Hr). exists d0. split; [now right|].
           now split.
      * exists (repeat (newRequest (scopeURL (handleOf d)) auth) n).
        split; [exact E|exact Hn].
    + rewrite rangePrograms_skip by exact Hd.
      destruct (IH processed w) as (rs & E & Hrs).
      exists rs. split; [exact E|].
      eapply Forall_impl; [|exact Hrs].
      intros r (d0 & Hin & Hb & Hr). exists d0. split; [now right|]. now split.
Qed.

End Fetcher.

Lemma prefix_append (p s : string) : String.prefix p (p ++ s) = true.
Proof.
  induction p as [|c p IH]; cbn [append]; [destruct s; reflexivity|].
  cbn [String.prefix]. destruct (ascii_dec c c); [exact IH|congruence].
Qed.

Lemma isPageRequest_programs page auth :
  isPageRequest (newRequest (programsURL page) auth) = true.
Proof. apply prefix_append. Qed.

Lemma isPageRequest_scope handle auth :
  isPageRequest (newRequest (scopeURL handle) auth) = false.
Proof. reflexivity. Qed.

Lemma pageRequests_app w1 w2 :
  pageRequests (w1 ++ w2)%list = (pageRequests w1 ++ pageRequests w2)%list.
Proof. unfold pageRequests. now rewrite requests_app, filter_app. Qed.

Lemma requests_writes lines : requests (map EvWrite lines) = [].
Proof. induction lines; [reflexivity|assumption]. Qed.

Lemma written_writes lines : written (map EvWrite lines) = lines.
Proof.
  induction lines as [|l lines IH]; [reflexivity|].
  cbn [map]. change (written (EvWrite l :: map EvWrite lines))
    with (l :: written (map EvWrite lines)). now rewrite IH.
Qed.

Lemma requests_pageTrace auth scopes data :
  requests (pageTrace auth scopes data)
  = map (fun d => newRequest (scopeURL (handleOf d)) auth)
        (filter offersBounties data).
Proof.
  induction data as [|d rest IH]; [reflexivity|].
  cbn [pageTrace filter]. destruct (offersBounties d); [|exact IH].
  cbn [map].
  change (requests (?a :: EvRequest ?r :: ?l)) with (r :: requests l).
  now rewrite requests_app, requests_writes, IH.
Qed.

Lemma written_pageTrace auth scopes data :
  written (pageTrace auth scopes data)
  = flat_map (linesOf scopes) (filter offersBounties data).
Proof.
  induction data as [|d rest IH]; [reflexivity|].
  cbn [pageTrace filter]. destruct (offersBounties d); [|exact IH].
  cbn [flat_map].
  change (written (?a :: EvRequest ?r :: ?l)) with (written l).
  now rewrite written_app, written_writes, IH.
Qed.

Lemma pageRequests_pageTrace auth scopes data :
  pageRequests (pageTrace auth scopes data) = [].
Proof.
  unfold pageRequests. rewrite requests_pageTrace.
  induction (filter offersBounties data) as [|d l IH]; [reflexivity|].
  cbn [map filter]. now rewrite isPageRequest_scope.
Qed.

Lemma pageRequests_fetchTrace auth scopes page pages :
  pageRequests (fetchTrace auth scopes page pages)
  = map (fun k => newRequest (programsURL k) auth)
        (pagesFrom page (length pages)).
Proof.
  revert page. induction pages as [|data rest IH]; intros page; [reflexivity|].
  cbn [fetchTrace length pagesFrom map].
  change (pageRequests (EvRequest ?r :: ?l))
    with (if isPageRequest r then r :: pageRequests l else pageRequests l).
  rewrite isPageRequest_programs, pageRequests_app, pageRequests_pageTrace, IH.
  reflexivity.
Qed.

Lemma cutByte_app username key :
  cutByte username ":" = None ->
  cutByte (username ++ ":" ++ key) ":" = Some (username, key).
Proof.
  change (":" ++ key)%string with (String ":" key).
  induction username as [|c u IH]; cbn [cutByte append]; [reflexivity|].
  destruct (Ascii.eqb c ":"); [discriminate|].
  destruct (cutByte u ":") as [[a b]|]; [discriminate|].
  intros _. now rewrite IH.
Qed.

Lemma cutByte_absent s sep :
  (forall c, In c (list_ascii_of_string s) -> c <> sep) ->
  cutByte s sep = None.
Proof.
  induction s as [|c s IH]; intros H; cbn [cutByte]; [reflexivity|].
  destruct (Ascii.eqb_spec c sep) as [->|_].
  - now destruct (H sep (or_introl eq_refl)).
  - rewrite IH; [reflexivity|]. intros c' Hc'. apply H. now right.
Qed.

Section Served.

Variable env : Env.
Variable auth : string.
Variable scopes : string -> list hackerOneScopePage.row.

Hypothesis URLs : forall url, newRequestErr env url = None.
Hypothesis Hscopes : ScopesServed env auth scopes.

Lemma fetchEligibleAssets_served handle w :
  fetchEligibleAssets env auth handle w
  = (inl (eligibleAssets (scopes handle)),
     (w ++ [EvRequest (newRequest (scopeURL handle) auth)])%list).
Proof.
  destruct (Hscopes handle) as (body & Hs & Hd).
  rewrite (fetchEligibleAssets_decoded env auth handle w body _ _
             (doRequestWithRetry_served env _ auth w body (URLs _) Hs) Hd).
  reflexivity.
Qed.

Lemma rangePrograms_served data processed w :
  wrapInt processed = processed ->
  rangePrograms env auth data processed w
  = (inl (wrapInt (processed
                   + Z.of_nat (length (filter offersBounties data)))),
     (w ++ pageTrace auth scopes data)%list).
Proof.
  revert processed w. induction data as [|d rest IH]; intros processed w Hp.
  - cbn [rangePrograms filter length pageTrace]. unfold ret.
    now rewrite Z.add_0_r, Hp, app_nil_r.
  - cbn [filter pageTrace]. destruct (offersBounties d) eqn:Hd.
    + rewrite rangePrograms_fetch, fetchEligibleAssets_served by exact Hd.
      rewrite IH by apply wrapInt_add_idem.
      rewrite wrapInt_add. f_equal.
      * f_equal. f_equal. cbn [length]. lia.
      * rewrite <- !app_assoc. cbn [app]. f_equal. f_equal. f_equal. f_equal.
        unfold linesOf. now rewrite map_map.
    + rewrite rangePrograms_skip by exact Hd. now apply IH.
Qed.

Hypothesis NoCancel : forall w, ctxErr env w = None.

(** One turn of the loop over the pages. *)
Lemma fetchPages_step fuel page processed w :
  fetchPages env (S fuel) auth page processed w
  = match doRequestWithRetry env (programsURL page) auth w with
    | (inr err, w1) =>
        Some ((processed,
               Some (wrapError "programs page request failed: " err)), w1)
    | (inl body, w1) =>
        match safeUnmarshal (jsonUnmarshalPrograms env) zeroProgramsPage
                body w1 with
        | ((Some err, _), w2) => Some ((processed, Some err), w2)
        | ((None, pg), w2) =>
            match hackerOneProgramsPage.Data pg with
            | [] => Some ((processed, None), w2)
            | data =>
                match rangePrograms env auth data processed w2 with
                | (inr (p, err), w3) => Some ((p, Some err), w3)
                | (inl p, w3) => fetchPages env fuel auth (wrapInt (page + 1)) p w3
                end
            end
        end
    end.
Proof. cbn [fetchPages]. now rewrite NoCancel. Qed.

Lemma fetchPages_empty_page fuel page processed w body w1 pg w2 :
  doRequestWithRetry env (programsURL page) auth w = (inl body, w1) ->
  safeUnmarshal (jsonUnmarshalPrograms env) zeroProgramsPage body w1
  = ((None, pg), w2) ->
  hackerOneProgramsPage.Data pg = [] ->
  fetchPages env (S fuel) auth page processed w = Some ((processed, None), w2).
Proof.
  intros Hr Hu Hd. now rewrite fetchPages_step, Hr, Hu, Hd.
Qed.

Lemma fetchPages_served pages page processed w extra :
  wrapInt processed = processed ->
  - 2 ^ 63 <= page -> page + Z.of_nat (length pages) < 2 ^ 63 ->
  PagesServed env auth page (pages ++ [[]]) ->
  Forall (fun data => data <> []) pages ->
  fetchPages env (S (length pages) + extra) auth page processed w
  = Some ((wrapInt (processed
                    + Z.of_nat (length (filter offersBounties (concat pages)))),
           None),
          (w ++ fetchTrace auth scopes page (pages ++ [[]]))%list).
Proof.
  revert page processed w.
  induction pages as [|data rest IH]; intros page processed w Hp Hlo Hhi Hs Hne.
  - destruct Hs as [(body & Hb & Hd) _].
    rewrite (fetchPages_empty_page _ page processed w body _ _ _
               (doRequestWithRetry_served env _ auth w body (URLs _) Hb)
               (safeUnmarshal_ok _ _ _ _ _ Hd) eq_refl).
    cbn [concat filter length fetchTrace pageTrace app].
    now rewrite Z.add_0_r, Hp.
  - destruct Hs as [(body & Hb & Hd) Hs]. cbn [app] in Hs.
    inversion Hne as [|? ? Hdata Hrest]; subst.
    change (S (length (data :: rest)) + extra)%nat
      with (S (S (length rest) + extra)).
    rewrite fetchPages_step.
    rewrite (doRequestWithRetry_served env _ auth w body (URLs _) Hb).
    rewrite (safeUnmarshal_ok _ _ _ _ _ Hd).
    cbn [hackerOneProgramsPage.Data].
    destruct data as [|d data']; [congruence|].
    rewrite rangePrograms_served by exact Hp.
    cbn [length] in Hhi.
    rewrite (wrapInt_small (page + 1)) by lia.
    rewrite IH; [|apply wrapInt_add_idem|lia|lia|exact Hs|exact Hrest].
    rewrite wrapInt_add. f_equal. f_equal.
    + f_equal. f_equal. cbn [concat]. rewrite filter_app, length_app. lia.
    + cbn [app fetchTrace]. now rewrite <- !app_assoc.
Qed.

End Served.

(** ** What [Fetch] does with pages, programs and credentials *)


Lemma Fetch_eq env fuel apiKey username key w :
  cutByte apiKey ":" = Some (username, key) ->
  Fetch env fuel apiKey w
  = fetchPages env fuel (base64Encode env (username ++ ":" ++ key)) 1 0 w.
Proof. intros H. unfold Fetch, SplitN2. now rewrite H. Qed.

Lemma echoEnv_scopes auth : ScopesServed echoEnv auth echoScopes.
Proof.
  intros h. exists (scopeURL h). split.
  - intros w. exists 200, "200 OK"%string. split; [reflexivity|lia].
  - unfold echoScopes. cbn [jsonUnmarshalScope echoEnv stubEnv].
    unfold scopeTable. reflexivity.
Qed.

(** C1.  Whatever the collaborators do, every round trip of the loop
    over a page of programs is a scope request for a program of that
    page whose [OffersBounties] is true; a scope page that arrives and
    decodes yields the asset identifiers of exactly its entries with
    [EligibleForBounty] true, in page order.  When every scope request
    is served, the loop makes one scope request and one only for each
    program that offers bounties, writes one line per eligible asset in
    page order, and has added one to [processed] for each such program,
    however many assets it has. *)
Theorem rangePrograms_filters_by_eligibility (env : Env) (auth : string)
    (data : list hackerOneProgramsPage.row) (processed : Z) (w : World) :
  (exists rs,
      requests (snd (rangePrograms env auth data processed w))
      = (requests w ++ rs)%list
      /\ Forall (fun r => exists d, In d data /\ offersBounties d = true
                          /\ r = newRequest (scopeURL (handleOf d)) auth) rs)
  /\ (forall handle w0 body w1 pg,
         doRequestWithRetry env (scopeURL handle) auth w0 = (inl body, w1) ->
         jsonUnmarshalScope env body = UnmarshalOk pg ->
         fetchEligibleAssets env auth handle w0
         = (inl (map (fun e => hackerOneScopePage.AssetIdentifier
                                 (hackerOneScopePage.Attributes e))
                     (filter (fun e => hackerOneScopePage.EligibleForBounty
                                         (hackerOneScopePage.Attributes e))
                             (hackerOneScopePage.Data pg))), w1))
  /\ (forall scopes,
         (forall url, newRequestErr env url = None) ->
         ScopesServed env auth scopes ->
         wrapInt processed = processed ->
         let bounty := filter offersBounties data in
         exists w',
           rangePrograms env auth data processed w
           = (inl (wrapInt (processed + Z.of_nat (length bounty))), w')
           /\ requests w'
              = (requests w
                 ++ map (fun d => newRequest (scopeURL (handleOf d)) auth)
                        bounty)%list
           /\ written w' = (written w ++ flat_map (linesOf scopes) bounty)%list).
Proof.
  split; [apply rangePrograms_requests|]. split.
  - intros handle w0 body w1 pg Hr Hd.
    apply (fetchEligibleAssets_decoded env auth handle w0 body w1 pg Hr Hd).
  - intros scopes URLs Hscopes Hp bounty.
    exists (w ++ pageTrace auth scopes data)%list. split.
    + apply rangePrograms_served; assumption.
    + now rewrite requests_app, written_app, requests_pageTrace,
        written_pageTrace.
Qed.

Lemma rangePrograms_filters_by_eligibility_witness :
  exists w',
    rangePrograms echoEnv "dXNlcjprZXk=" [program "d" false; program "x" true] 0 []
    = (inl 1, w')
    /\ requests w' = [newRequest (scopeURL "x") "dXNlcjprZXk="]
    /\ written w' = ["b.com" ++ newline]%string.
Proof.
  apply (proj2 (proj2 (rangePrograms_filters_by_eligibility echoEnv
                         "dXNlcjprZXk=" [program "d" false; program "x" true]
                         0 [])) echoScopes);
    [reflexivity|apply echoEnv_scopes|reflexivity].
Defined.

Lemma pageRequests_repeat_page auth page n :
  filter isPageRequest (repeat (newRequest (programsURL page) auth) n)
  = repeat (newRequest (programsURL page) auth) n.
Proof.
  induction n as [|n IH]; [reflexivity|].
  cbn [repeat filter]. now rewrite isPageRequest_programs, IH.
Qed.

Lemma pageRequests_scope_only env auth data processed w :
  pageRequests (snd (rangePrograms env auth data processed w)) = pageRequests w.
Proof.
  destruct (rangePrograms_requests env auth data processed w) as (rs & E & Hrs).
  unfold pageRequests. rewrite E, filter_app.
  assert (filter isPageRequest rs = []) as ->; [|apply app_nil_r].
  clear E. induction Hrs as [|r rs (d & _ & _ & ->) _ IH]; [reflexivity|].
  cbn [filter]. now rewrite isPageRequest_scope.
Qed.

(** The page requests of the loop over the pages, whatever the
    collaborators do: at most three attempts for the page the loop
    starts at, then at most three for the next one, and so on. *)
Lemma fetchPages_page_order env auth fuel page processed w :
  match fetchPages env fuel auth page processed w with
  | Some (_, w') =>
      exists attempts,
        Forall (fun n => (n <= 3)%nat) attempts
        /\ pageRequests w'
           = (pageRequests w ++ pageBlocks auth page attempts)%list
  | None => True
  end.
Proof.
  revert page processed w. induction fuel as [|fuel IH]; intros page processed w;
    [exact I|].
  cbn [fetchPages].
  assert (exists attempts,
             Forall (fun n => (n <= 3)%nat) attempts
             /\ pageRequests w = (pageRequests w ++ pageBlocks auth page attempts)%list)
    as Hnone.
  { exists []. split; [constructor|]. cbn [pageBlocks]. now rewrite app_nil_r. }
  destruct (ctxErr env w); [exact Hnone|]. clear Hnone.
  destruct (doRequestWithRetry_at_most_3 env (programsURL page) auth w)
    as (n & Hn & E).
  assert (forall w1, requests w1 = (requests w
                        ++ repeat (newRequest (programsURL page) auth) n)%list ->
          exists attempts,
            Forall (fun n => (n <= 3)%nat) attempts
            /\ pageRequests w1
               = (pageRequests w ++ pageBlocks auth page attempts)%list) as Hone.
  { intros w1 E1. exists [n]. split; [constructor; [exact Hn|constructor]|].
    unfold pageRequests. rewrite E1, filter_app, pageRequests_repeat_page.
    cbn [pageBlocks]. now rewrite app_nil_r. }
  destruct (doRequestWithRetry env (programsURL page) auth w)
    as [[body|err] w1]; cbn [snd] in E; [|now apply Hone].
  pose proof (safeUnmarshal_requests (jsonUnmarshalPrograms env)
                zeroProgramsPage body w1) as E2.
  destruct (safeUnmarshal (jsonUnmarshalPrograms env) zeroProgramsPage body w1)
    as [[[err|] pg] w2]; cbn [snd] in E2; rewrite <- E2 in E;
    [now apply Hone|].
  destruct (hackerOneProgramsPage.Data pg) as [|d data]; [now apply Hone|].
  pose proof (pageRequests_scope_only env auth (d :: data) processed w2) as E3.
  destruct (rangePrograms env auth (d :: data) processed w2)
    as [[p|[p err]] w3]; cbn [snd] in E3.
  - specialize (IH (wrapInt (page + 1)) p w3).
    destruct (fetchPages env fuel auth (wrapInt (page + 1)) p w3)
      as [[res w']|]; [|exact I].
    destruct IH as (attempts & Ha & E4).
    exists (n :: attempts). split; [now constructor|].
    rewrite E4, E3. unfold pageRequests at 1. rewrite E, filter_app.
    rewrite pageRequests_repeat_page. cbn [pageBlocks].
    now rewrite <- app_assoc.
  - destruct (Hone w2 E) as (attempts & Ha & E4).
    exists attempts. split; [exact Ha|]. now rewrite E3.
Qed.

(** C2.  [Fetch] asks for page 1 first and then for the next page each
    time, and a page that decodes to no program ends it with a nil
    error.  Whatever the collaborators do, the page requests of a run are
    some attempts (three at most) for page 1, then for page 2, and so on;
    from any state of the loop, a page that arrives and decodes to no
    program makes [Fetch] return the count it has with a nil error, with
    no further request.  And when the context is not cancelled, the pages
    1 to n hold programs, page n+1 holds none and every request is
    served, [Fetch] with fuel for n+1 pages or more returns a nil error,
    and the page requests it has made are those for the pages 1, 2, ...,
    n+1, once each and in that order. *)
Theorem Fetch_stops_at_empty_page (env : Env) :
  (forall fuel apiKey w,
      match Fetch env fuel apiKey w with
      | Some (_, w') =>
          exists auth attempts,
            Forall (fun n => (n <= 3)%nat) attempts
            /\ pageRequests w'
               = (pageRequests w ++ pageBlocks auth 1 attempts)%list
      | None => True
      end)
  /\ (forall auth fuel page processed w body w1 pg w2,
         ctxErr env w = None ->
         doRequestWithRetry env (programsURL page) auth w = (inl body, w1) ->
         safeUnmarshal (jsonUnmarshalPrograms env) zeroProgramsPage body w1
         = ((None, pg), w2) ->
         hackerOneProgramsPage.Data pg = [] ->
         fetchPages env (S fuel) auth page processed w
         = Some ((processed, None), w2))
  /\ (forall username key pages scopes extra w,
         cutByte username ":" = None ->
         (forall url, newRequestErr env url = None) ->
         (forall w0, ctxErr env w0 = None) ->
         let auth := base64Encode env (username ++ ":" ++ key) in
         PagesServed env auth 1 (pages ++ [[]]) ->
         Forall (fun data => data <> []) pages ->
         ScopesServed env auth scopes ->
         Z.of_nat (length pages) + 1 < 2 ^ 63 ->
         exists w',
           Fetch env (S (length pages) + extra) (username ++ ":" ++ key) w
           = Some ((wrapInt (Z.of_nat (length (filter offersBounties
                                                      (concat pages)))),
                    None), w')
           /\ pageRequests w'
              = (pageRequests w
                 ++ map (fun page => newRequest (programsURL page) auth)
                        (pagesFrom 1 (S (length pages))))%list).
Proof.
  split; [|split].
  - intros fuel apiKey w. unfold Fetch, SplitN2.
    destruct (cutByte apiKey ":") as [[username key]|].
    + pose proof (fetchPages_page_order env
                    (base64Encode env (username ++ ":" ++ key)) fuel 1 0 w) as H.
      destruct (fetchPages env fuel _ 1 0 w) as [[res w']|]; [|exact I].
      destruct H as (attempts & Ha & E).
      now exists (base64Encode env (username ++ ":" ++ key)), attempts.
    + exists EmptyString, []. split; [constructor|].
      cbn [pageBlocks]. now rewrite app_nil_r.
  - intros auth fuel page processed w body w1 pg w2 Hctx Hr Hu Hd.
    cbn [fetchPages]. now rewrite Hctx, Hr, Hu, Hd.
  - intros username key pages scopes extra w Hu URLs NoCancel auth Hpages Hne
           Hscopes Hn.
    exists (w ++ fetchTrace auth scopes 1 (pages ++ [[]]))%list. split.
    + rewrite (Fetch_eq env _ _ username key w (cutByte_app username key Hu)).
      fold auth.
      rewrite (fetchPages_served env auth scopes URLs Hscopes NoCancel pages 1 0
                 w extra);
        [reflexivity|reflexivity|lia|lia|exact Hpages|exact Hne].
    + rewrite pageRequests_app, pageRequests_fetchTrace, length_app.
      cbn [length]. now rewrite Nat.add_1_r.
Qed.

Lemma Fetch_stops_at_empty_page_witness :
  exists w',
    Fetch echoEnv 3 "user:key" [] = Some ((3, None), w')
    /\ pageRequests w'
       = [newRequest (programsURL 1) "user:key";
          newRequest (programsURL 2) "user:key";
          newRequest (programsURL 3) "user:key"].
Proof.
  apply (proj2 (proj2 (Fetch_stops_at_empty_page echoEnv))
           "user" "key" threePages echoScopes 0%nat []).
  - reflexivity.
  - reflexivity.
  - reflexivity.
  - cbn. repeat split;
      (eexists; split;
       [intros w; exists 200, "200 OK"%string; split; [reflexivity|lia]
       |reflexivity]).
  - repeat constructor; discriminate.
  - apply echoEnv_scopes.
  - cbn. lia.
Defined.



(** C9.  A credential string without a colon makes [Fetch] return the
    count 0 and the credential format error at once, whatever the fuel:
    the world is left as it was, so no request has been made, nothing
    has been slept and nothing written. *)
Theorem Fetch_rejects_credentials_without_colon (env : Env) (fuel : nat)
    (apiKey : string) (w : World) :
  (forall c, In c (list_ascii_of_string apiKey) -> c <> ":"%char) ->
  Fetch env fuel apiKey w
  = Some ((0, Some (errorsNew
                      "formato de credenciales inválido, debe ser username:apikey")),
          w).
Proof.
  intros H. unfold Fetch, SplitN2. now rewrite (cutByte_absent _ _ H).
Qed.

Lemma Fetch_rejects_credentials_without_colon_witness :
  Fetch echoEnv 0 "h1-token" []
  = Some ((0, Some (errorsNew
                      "formato de credenciales inválido, debe ser username:apikey")),
          []).
Proof.
  apply (Fetch_rejects_credentials_without_colon echoEnv 0 "h1-token" []).
  intros c Hc. cbn in Hc.
  repeat (destruct Hc as [<-|Hc]; [discriminate|]). destruct Hc.
Defined.
(** * Further properties *)

(** ** The retry wrapper: bounds, cancellation, recovery *)

Lemma retryLoop_sleeps env remaining attempt lastErr url auth w :
  0 <= attempt -> attempt + Z.of_nat remaining < 2 ^ 63 ->
  exists k,
    sleeps (snd (retryLoop env remaining attempt lastErr url auth w))
    = (sleeps w ++ firstn k (delaysFrom remaining attempt))%list.
Proof.
  revert attempt lastErr w.
  induction remaining as [|remaining IH]; intros attempt lastErr w Hlo Hhi.
  - exists 0%nat. cbn [retryLoop delaysFrom firstn]. rewrite app_nil_r.
    destruct lastErr; reflexivity.
  - rewrite retryLoop_step. cbv beta zeta. cbn [delaysFrom].
    assert (forall w0, exists k,
              sleeps (snd (match doRequest env url auth w0 with
                           | (inl body, w1) => (inl body, w1)
                           | (inr err, w1) =>
                               if isTimeout err then
                                 retryLoop env remaining (wrapInt (attempt + 1))
                                           (Some err) url auth w1
                               else (inr err, w1)
                           end))
              = (sleeps w0 ++ firstn k (delaysFrom remaining (attempt + 1)))%list)
      as Htry.
    { intros w0. pose proof (doRequest_sleeps env url auth w0) as E.
      destruct (doRequest env url auth w0) as [[body|err] w1]; cbn [snd] in E.
      - exists 0%nat. cbn [snd firstn]. now rewrite app_nil_r.
      - destruct (isTimeout err).
        + rewrite (wrapInt_small (attempt + 1)) by lia.
          destruct (IH (attempt + 1) (Some err) w1) as (k & Ek); [lia|lia|].
          exists k. now rewrite Ek, E.
        + exists 0%nat. cbn [snd firstn]. now rewrite app_nil_r. }
    destruct (0 <? attempt).
    + destruct (ctxDoneWithin env w (Z.shiftl 1 attempt * second)).
      * exists 0%nat. cbn [snd firstn]. now rewrite app_nil_r.
      * destruct (Htry (w ++ [EvSleep (Z.shiftl 1 attempt * second)])%list)
          as (k & Ek).
        exists (S k). rewrite Ek, sleeps_app. cbn [app firstn].
        now rewrite <- app_assoc.
    + destruct (Htry w) as (k & Ek). exists k. exact Ek.
Qed.

(** X1.  Whatever the collaborators do, a call of [doRequestWithRetry]
    makes three round trips at most, all with the request for the URL it
    was given, and its completed back-off sleeps are the first zero, one
    or two of the delays 2s, 4s, in that order. *)
Theorem doRequestWithRetry_bounded (env : Env) (url auth : string) (w : World) :
  exists n k,
    (n <= 3)%nat /\ (k <= 2)%nat
    /\ requests (snd (doRequestWithRetry env url auth w))
       = (requests w ++ repeat (newRequest url auth) n)%list
    /\ sleeps (snd (doRequestWithRetry env url auth w))
       = (sleeps w ++ firstn k backoff)%list.
Proof.
  destruct (retryLoop_requests env 3 0 None url auth w) as (n & Hn & En).
  destruct (retryLoop_sleeps env 3 0 None url auth w) as (k & Ek);
    [lia|cbn; lia|].
  exists n, (Nat.min k 2). split; [exact Hn|]. split; [lia|].
  split; [exact En|]. unfold doRequestWithRetry. rewrite Ek.
  change (delaysFrom 3 0) with backoff. f_equal.
  unfold backoff. destruct k as [|[|[|k]]]; reflexivity.
Qed.

Section Backoff.

Variable env : Env.
Variables url auth : string.

(** X2.  Cancellation during a back-off sleep ends the call at once:
    when the first attempt has failed with a deadline error and the
    context is done before the 2s timer, [doRequestWithRetry] returns
    the context's error as it is, with no second round trip and no
    completed sleep; likewise before the third attempt. *)
Theorem doRequestWithRetry_cancelled_in_backoff (w : World) (err : error)
    (w1 : World) (cerr : error) :
  doRequest env url auth w = (inr err, w1) ->
  isTimeout err = true ->
  (ctxDoneWithin env w1 (2 * second) = Some cerr ->
   doRequestWithRetry env url auth w = (inr cerr, w1))
  /\ (forall err2 w2,
         ctxDoneWithin env w1 (2 * second) = None ->
         doRequest env url auth (w1 ++ [EvSleep (2 * second)])%list
         = (inr err2, w2) ->
         isTimeout err2 = true ->
         ctxDoneWithin env w2 (4 * second) = Some cerr ->
         doRequestWithRetry env url auth w = (inr cerr, w2)).
Proof.
  intros Hreq Ht. unfold doRequestWithRetry.
  rewrite retryLoop_step. cbv beta zeta.
  change (0 <? 0) with false. cbv beta iota. rewrite Hreq, Ht.
  rewrite retryLoop_step. cbv beta zeta.
  change (0 <? wrapInt (0 + 1)) with true. cbv beta iota.
  change (Z.shiftl 1 (wrapInt (0 + 1))) with 2.
  split.
  - intros Hc. now rewrite Hc.
  - intros err2 w2 Hc Hreq2 Ht2 Hc2. rewrite Hc, Hreq2, Ht2.
    rewrite retryLoop_step. cbv beta zeta.
    change (0 <? wrapInt (wrapInt (0 + 1) + 1)) with true. cbv beta iota.
    change (Z.shiftl 1 (wrapInt (wrapInt (0 + 1) + 1))) with 4.
    now rewrite Hc2.
Qed.

(** X3.  A deadline error is masked by a later success: when the first
    attempt fails with a deadline error, the context outlasts the 2s
    sleep and the second attempt succeeds, [doRequestWithRetry] returns
    the body of the second attempt. *)
Theorem doRequestWithRetry_recovers (w : World) (err : error) (w1 : World)
    (body : string) (w2 : World) :
  doRequest env url auth w = (inr err, w1) ->
  isTimeout err = true ->
  ctxDoneWithin env w1 (2 * second) = None ->
  doRequest env url auth (w1 ++ [EvSleep (2 * second)])%list = (inl body, w2) ->
  doRequestWithRetry env url auth w = (inl body, w2).
Proof.
  intros Hreq Ht Hc Hreq2. unfold doRequestWithRetry.
  rewrite retryLoop_step. cbv beta zeta.
  change (0 <? 0) with false. cbv beta iota. rewrite Hreq, Ht.
  rewrite retryLoop_step. cbv beta zeta.
  change (0 <? wrapInt (0 + 1)) with true. cbv beta iota.
  change (Z.shiftl 1 (wrapInt (0 + 1))) with 2.
  now rewrite Hc, Hreq2.
Qed.

End Backoff.

Lemma doRequestWithRetry_cancelled_in_backoff_witness :
  doRequestWithRetry (deadlineEnv 0) (programsURL 1) "dXNlcjprZXk=" []
  = (inr (errorsNew "context canceled"),
     [EvRequest (newRequest (programsURL 1) "dXNlcjprZXk=")])
  /\ doRequestWithRetry (deadlineEnv (4 * second)) (programsURL 1)
       "dXNlcjprZXk=" []
     = (inr (errorsNew "context canceled"),
        [EvRequest (newRequest (programsURL 1) "dXNlcjprZXk=");
         EvSleep (2 * second);
         EvRequest (newRequest (programsURL 1) "dXNlcjprZXk=")]).
Proof.
  split.
  - apply (proj1 (doRequestWithRetry_cancelled_in_backoff (deadlineEnv 0)
                    (programsURL 1) "dXNlcjprZXk=" []
                    (errorsNew "context deadline exceeded")
                    [EvRequest (newRequest (programsURL 1) "dXNlcjprZXk=")]
                    (errorsNew "context canceled") eq_refl eq_refl)).
    reflexivity.
  - apply (proj2 (doRequestWithRetry_cancelled_in_backoff
                    (deadlineEnv (4 * second))
                    (programsURL 1) "dXNlcjprZXk=" []
                    (errorsNew "context deadline exceeded")
                    [EvRequest (newRequest (programsURL 1) "dXNlcjprZXk=")]
                    (errorsNew "context canceled") eq_refl eq_refl)
                 (errorsNew "context deadline exceeded"));
      reflexivity.
Defined.

Lemma doRequestWithRetry_recovers_witness :
  doRequestWithRetry flakyEnv (programsURL 1) "dXNlcjprZXk=" []
  = (inl (programsURL 1),
     [EvRequest (newRequest (programsURL 1) "dXNlcjprZXk=");
      EvSleep (2 * second);
      EvRequest (newRequest (programsURL 1) "dXNlcjprZXk=")]).
Proof.
  apply (doRequestWithRetry_recovers flakyEnv (programsURL 1) "dXNlcjprZXk=" []
           (errorsNew "context deadline exceeded")
           [EvRequest (newRequest (programsURL 1) "dXNlcjprZXk=")]);
    reflexivity.
Defined.

(** ** The fetcher: credentials, cancellation, requests, progress *)

Lemma cutByte_join s sep u k :
  cutByte s sep = Some (u, k) -> (u ++ String sep k)%string = s.
Proof.
  revert u k. induction s as [|c s IH]; intros u k; cbn [cutByte];
    [discriminate|].
  destruct (Ascii.eqb_spec c sep) as [->|Hc].
  - intros [= <- <-]. reflexivity.
  - destruct (cutByte s sep) as [[a b]|]; [|discriminate].
    intros [= <- <-]. cbn [append]. now rewrite (IH a b eq_refl).
Qed.

Lemma cutByte_first s sep u k :
  cutByte s sep = Some (u, k) -> cutByte u sep = None.
Proof.
  revert u k. induction s as [|c s IH]; intros u k; cbn [cutByte];
    [discriminate|].
  destruct (Ascii.eqb_spec c sep) as [->|Hc].
  - intros [= <- <-]. reflexivity.
  - destruct (cutByte s sep) as [[a b]|]; [|discriminate].
    intros [= <- <-]. cbn [cutByte].
    destruct (Ascii.eqb_spec c sep); [contradiction|].
    now rewrite (IH a b eq_refl).
Qed.

Lemma cutByte_present s sep :
  In sep (list_ascii_of_string s) -> exists u k, cutByte s sep = Some (u, k).
Proof.
  induction s as [|c s IH]; cbn [list_ascii_of_string In cutByte]; [tauto|].
  intros H. destruct (Ascii.eqb_spec c sep) as [->|Hc]; [now eexists _, _|].
  destruct H as [H|H]; [contradiction|].
  destruct (IH H) as (u & k & ->). now eexists _, _.
Qed.

Lemma Fetch_joined env fuel apiKey w :
  In ":"%char (list_ascii_of_string apiKey) ->
  Fetch env fuel apiKey w
  = fetchPages env fuel (base64Encode env apiKey) 1 0 w.
Proof.
  intros H. destruct (cutByte_present _ _ H) as (u & k & E).
  rewrite (Fetch_eq env fuel apiKey u k w E).
  change (":" ++ k)%string with (String ":" k).
  now rewrite (cutByte_join _ _ _ _ E).
Qed.

(** X4.  A credential string is split at its first colon only, and the
    two parts are joined again with a colon before they are encoded: for
    every credential string with a colon, however many, the token
    [Fetch] works with is the base64 encoding of the string as it was
    given. *)
Theorem Fetch_token_is_base64_of_credentials (env : Env) (fuel : nat)
    (apiKey : string) (w : World) :
  In ":"%char (list_ascii_of_string apiKey) ->
  exists username key,
    SplitN2 apiKey ":" = [username; key]
    /\ cutByte username ":" = None
    /\ (username ++ ":" ++ key)%string = apiKey
    /\ Fetch env fuel apiKey w
       = fetchPages env fuel (base64Encode env apiKey) 1 0 w.
Proof.
  intros H. destruct (cutByte_present _ _ H) as (u & k & E).
  exists u, k. split; [unfold SplitN2; now rewrite E|].
  split; [exact (cutByte_first _ _ _ _ E)|].
  split; [exact (cutByte_join _ _ _ _ E)|]. now apply Fetch_joined.
Qed.

Lemma Fetch_token_is_base64_of_credentials_witness :
  exists username key,
    SplitN2 "user:key:with:colons" ":" = [username; key]
    /\ cutByte username ":" = None
    /\ (username ++ ":" ++ key)%string = "user:key:with:colons"
    /\ Fetch echoEnv 3 "user:key:with:colons" []
       = fetchPages echoEnv 3 "user:key:with:colons" 1 0 [].
Proof.
  apply (Fetch_token_is_base64_of_credentials echoEnv 3 "user:key:with:colons" []).
  cbn. tauto.
Defined.

(** X5.  The context is polled before each page.  When it is done as
    the loop comes to a page, the loop returns the count it has and the
    context's error as it is, and makes no request; a [Fetch] that
    starts with a cancelled context returns the count 0. *)
Theorem Fetch_cancelled_before_page (env : Env) (fuel : nat) (w : World)
    (cerr : error) :
  ctxErr env w = Some cerr ->
  (forall auth page processed,
      fetchPages env (S fuel) auth page processed w
      = Some ((processed, Some cerr), w))
  /\ (forall apiKey,
         In ":"%char (list_ascii_of_string apiKey) ->
         Fetch env (S fuel) apiKey w = Some ((0, Some cerr), w)).
Proof.
  intros Hc. split.
  - intros auth page processed. cbn [fetchPages]. now rewrite Hc.
  - intros apiKey H. rewrite (Fetch_joined env _ _ _ H).
    cbn [fetchPages]. now rewrite Hc.
Qed.

Lemma Fetch_cancelled_before_page_witness :
  Fetch cancelledEnv 1 "user:key" []
  = Some ((0, Some (errorsNew "context canceled")), []).
Proof.
  apply (proj2 (Fetch_cancelled_before_page cancelledEnv 0 []
                  (errorsNew "context canceled") eq_refl)).
  cbn. tauto.
Defined.

(** Every round trip of the loop over the pages carries the request
    [doRequest] builds with the token of the loop. *)
Lemma fetchPages_requests_built env auth fuel page processed w :
  match fetchPages env fuel auth page processed w with
  | Some (_, w') =>
      exists rs,
        requests w' = (requests w ++ rs)%list
        /\ Forall (fun r => exists url, r = newRequest url auth) rs
  | None => True
  end.
Proof.
  revert page processed w. induction fuel as [|fuel IH]; intros page processed w;
    [exact I|].
  cbn [fetchPages].
  assert (forall w1 rs,
             requests w1 = (requests w ++ rs)%list ->
             Forall (fun r => exists url, r = newRequest url auth) rs ->
             exists rs0,
               requests w1 = (requests w ++ rs0)%list
               /\ Forall (fun r => exists url, r = newRequest url auth) rs0)
    as Hdone by (intros w1 rs E H; now exists rs).
  destruct (ctxErr env w).
  { apply (Hdone w []); [now rewrite app_nil_r|constructor]. }
  destruct (doRequestWithRetry_at_most_3 env (programsURL page) auth w)
    as (n & _ & E).
  assert (Forall (fun r => exists url, r = newRequest url auth)
                 (repeat (newRequest (programsURL page) auth) n)) as Hn.
  { apply Forall_forall. intros r Hr. apply repeat_spec in Hr.
    exists (programsURL page). exact Hr. }
  destruct (doRequestWithRetry env (programsURL page) auth w)
    as [[body|err] w1]; cbn [snd] in E; [|now apply (Hdone w1 _ E)].
  pose proof (safeUnmarshal_requests (jsonUnmarshalPrograms env)
                zeroProgramsPage body w1) as E2.
  destruct (safeUnmarshal (jsonUnmarshalPrograms env) zeroProgramsPage body w1)
    as [[[err|] pg] w2]; cbn [snd] in E2; rewrite <- E2 in E;
    [now apply (Hdone w2 _ E)|].
  destruct (hackerOneProgramsPage.Data pg) as [|d data];
    [now apply (Hdone w2 _ E)|].
  destruct (rangePrograms_requests env auth (d :: data) processed w2)
    as (rs & E3 & Hrs).
  assert (Forall (fun r => exists url, r = newRequest url auth) rs) as Hrs'.
  { eapply Forall_impl; [|exact Hrs]. intros r (d0 & _ & _ & ->).
    eexists. reflexivity. }
  destruct (rangePrograms env auth (d :: data) processed w2)
    as [[p|[p err]] w3]; cbn [snd] in E3.
  - specialize (IH (wrapInt (page + 1)) p w3).
    destruct (fetchPages env fuel auth (wrapInt (page + 1)) p w3)
      as [[res w']|]; [|exact I].
    destruct IH as (rs' & E4 & Hrs'').
    exists (repeat (newRequest (programsURL page) auth) n ++ rs ++ rs')%list.
    split; [now rewrite E4, E3, E, <- !app_assoc|].
    apply Forall_app. split; [exact Hn|]. apply Forall_app. now split.
  - exists (repeat (newRequest (programsURL page) auth) n ++ rs)%list.
    split; [now rewrite E3, E, <- app_assoc|].
    apply Forall_app. now split.
Qed.

(** X6.  Whatever the collaborators do, every request of a run of
    [Fetch] is a GET that carries the content type and accept headers
    for JSON and the Basic authorisation built from the base64 encoding
    of the credential string: no request leaves without the
    credentials. *)
Theorem Fetch_requests_are_authenticated (env : Env) (fuel : nat)
    (apiKey : string) (w : World) :
  match Fetch env fuel apiKey w with
  | Some (_, w') =>
      exists rs,
        requests w' = (requests w ++ rs)%list
        /\ Forall (fun r => Method r = "GET"%string
                            /\ Header r = headersFor (base64Encode env apiKey)) rs
  | None => True
  end.
Proof.
  unfold Fetch, SplitN2. destruct (cutByte apiKey ":") as [[u k]|] eqn:E.
  - change (":" ++ k)%string with (String ":" k).
    rewrite (cutByte_join _ _ _ _ E).
    pose proof (fetchPages_requests_built env (base64Encode env apiKey) fuel 1 0 w)
      as H.
    destruct (fetchPages env fuel (base64Encode env apiKey) 1 0 w)
      as [[res w']|]; [|exact I].
    destruct H as (rs & Ers & Hrs). exists rs. split; [exact Ers|].
    eapply Forall_impl; [|exact Hrs]. intros r (url & ->). now split.
  - exists []. split; [now rewrite app_nil_r|constructor].
Qed.

Lemma doRequest_written env url auth w :
  written (snd (doRequest env url auth w)) = written w.
Proof.
  rewrite doRequest_eq. destruct (newRequestErr env url); [reflexivity|].
  cbn [snd]. rewrite written_app. cbn. apply app_nil_r.
Qed.

Lemma retryLoop_written env remaining attempt lastErr url auth w :
  written (snd (retryLoop env remaining attempt lastErr url auth w)) = written w.
Proof.
  revert attempt lastErr w.
  induction remaining as [|remaining IH]; intros attempt lastErr w.
  - cbn [retryLoop]. destruct lastErr; reflexivity.
  - rewrite retryLoop_step. cbv beta zeta.
    assert (forall w0,
              written (snd (match doRequest env url auth w0 with
                            | (inl body, w1) => (inl body, w1)
                            | (inr err, w1) =>
                                if isTimeout err then
                                  retryLoop env remaining (wrapInt (attempt + 1))
                                            (Some err) url auth w1
                                else (inr err, w1)
                            end)) = written w0) as Htry.
    { intros w0. pose proof (doRequest_written env url auth w0) as E.
      destruct (doRequest env url auth w0) as [[body|err] w1]; cbn [snd] in E;
        [exact E|].
      destruct (isTimeout err); [now rewrite IH|exact E]. }
    destruct (0 <? attempt); [|apply Htry].
    destruct (ctxDoneWithin env w (Z.shiftl 1 attempt * second)); [reflexivity|].
    rewrite Htry, written_app. cbn. apply app_nil_r.
Qed.

Lemma written_fetchTrace auth scopes page pages :
  written (fetchTrace auth scopes page pages)
  = flat_map (linesOf scopes) (filter offersBounties (concat pages)).
Proof.
  revert page. induction pages as [|data rest IH]; intros page; [reflexivity|].
  cbn [fetchTrace concat].
  change (written (EvRequest ?r :: ?l)) with (written l).
  now rewrite written_app, written_pageTrace, IH, filter_app, flat_map_app.
Qed.

Section Progress.

Variable env : Env.
Variable auth : string.
Variable scopes : string -> list hackerOneScopePage.row.

Hypothesis URLs : forall url, newRequestErr env url = None.
Hypothesis Hscopes : ScopesServed env auth scopes.
Hypothesis NoCancel : forall w, ctxErr env w = None.

(** The loop walks through pages that hold programs and are served, one
    unit of fuel each. *)
Lemma fetchPages_through_served pages page processed w fuel :
  wrapInt processed = processed ->
  - 2 ^ 63 <= page -> page + Z.of_nat (length pages) < 2 ^ 63 ->
  PagesServed env auth page pages ->
  Forall (fun data => data <> []) pages ->
  fetchPages env (length pages + fuel) auth page processed w
  = fetchPages env fuel auth (page + Z.of_nat (length pages))
      (wrapInt (processed
                + Z.of_nat (length (filter offersBounties (concat pages)))))
      (w ++ fetchTrace auth scopes page pages)%list.
Proof.
  revert page processed w.
  induction pages as [|data rest IH]; intros page processed w Hp Hlo Hhi Hs Hne.
  - cbn [length Nat.add concat filter fetchTrace].
    now rewrite !Z.add_0_r, Hp, app_nil_r.
  - destruct Hs as [(body & Hb & Hd) Hs].
    inversion Hne as [|? ? Hdata Hrest]; subst.
    change (length (data :: rest) + fuel)%nat with (S (length rest + fuel)).
    rewrite (fetchPages_step env auth NoCancel).
    rewrite (doRequestWithRetry_served env _ auth w body (URLs _) Hb).
    rewrite (safeUnmarshal_ok _ _ _ _ _ Hd).
    cbn [hackerOneProgramsPage.Data].
    destruct data as [|d data']; [congruence|].
    rewrite (rangePrograms_served env auth scopes URLs Hscopes) by exact Hp.
    cbn [length] in Hhi.
    rewrite (wrapInt_small (page + 1)) by lia.
    rewrite IH; [|apply wrapInt_add_idem|lia|lia|exact Hs|exact Hrest].
    rewrite wrapInt_add. f_equal.
    + cbn [length]. lia.
    + f_equal. cbn [concat]. rewrite filter_app, length_app. lia.
    + cbn [app fetchTrace]. now rewrite <- !app_assoc.
Qed.

End Progress.

(** X7.  The sink receives the eligible assets of the whole run in
    discovery order: when the pages 1 to n hold programs, page n+1 holds
    none and every request is served, [Fetch] has written, for the
    programs that offer bounties, page after page and in page order, the
    eligible asset identifiers of each in scope order, one line each,
    and nothing else. *)
Theorem Fetch_writes_assets_in_discovery_order (env : Env) (apiKey : string)
    (pages : list (list hackerOneProgramsPage.row))
    (scopes : string -> list hackerOneScopePage.row) (extra : nat) (w : World) :
  In ":"%char (list_ascii_of_string apiKey) ->
  (forall url, newRequestErr env url = None) ->
  (forall w0, ctxErr env w0 = None) ->
  PagesServed env (base64Encode env apiKey) 1 (pages ++ [[]]) ->
  Forall (fun data => data <> []) pages ->
  ScopesServed env (base64Encode env apiKey) scopes ->
  Z.of_nat (length pages) + 1 < 2 ^ 63 ->
  exists res w',
    Fetch env (S (length pages) + extra) apiKey w = Some (res, w')
    /\ written w'
       = (written w
          ++ flat_map (linesOf scopes)
                      (filter offersBounties (concat pages)))%list.
Proof.
  intros Hcolon URLs NoCancel Hpages Hne Hscopes Hn.
  rewrite (Fetch_joined env _ _ _ Hcolon).
  rewrite (fetchPages_served env _ scopes URLs Hscopes NoCancel pages 1 0 w extra);
    [|reflexivity|lia|lia|exact Hpages|exact Hne].
  eexists _, _. split; [reflexivity|].
  rewrite written_app, written_fetchTrace, concat_app. cbn [concat].
  now rewrite !app_nil_r.
Qed.

Lemma echoEnv_pages auth : PagesServed echoEnv auth 1 (threePages ++ [[]]).
Proof.
  cbn. repeat split;
    (eexists; split;
     [intros w; exists 200, "200 OK"%string; split; [reflexivity|lia]
     |reflexivity]).
Qed.

Lemma Fetch_writes_assets_in_discovery_order_witness :
  exists res w',
    Fetch echoEnv 3 "user:key" [] = Some (res, w')
    /\ written w'
       = [("a.example" ++ newline)%string; ("api.a.example" ++ newline)%string;
          ("b.com" ++ newline)%string].
Proof.
  apply (Fetch_writes_assets_in_discovery_order echoEnv "user:key" threePages
           echoScopes 0 []).
  - cbn. tauto.
  - reflexivity.
  - reflexivity.
  - apply echoEnv_pages.
  - repeat constructor; discriminate.
  - apply echoEnv_scopes.
  - cbn. lia.
Defined.

(** X8.  Progress made before a failure is kept: when the pages 1 to n
    hold programs and are served with their scopes, and the request for
    page n+1 fails, [Fetch] returns the number of programs with bounties
    of the pages 1 to n next to the error, wrapped as a failed page
    request, and the sink holds all the lines of those pages. *)
Theorem Fetch_keeps_progress_on_page_failure (env : Env) (apiKey : string)
    (pages : list (list hackerOneProgramsPage.row))
    (scopes : string -> list hackerOneScopePage.row) (fuel : nat) (w : World)
    (err : error) (w2 : World) :
  In ":"%char (list_ascii_of_string apiKey) ->
  (forall url, newRequestErr env url = None) ->
  (forall w0, ctxErr env w0 = None) ->
  let auth := base64Encode env apiKey in
  PagesServed env auth 1 pages ->
  Forall (fun data => data <> []) pages ->
  ScopesServed env auth scopes ->
  Z.of_nat (length pages) + 1 < 2 ^ 63 ->
  doRequestWithRetry env (programsURL (1 + Z.of_nat (length pages))) auth
    (w ++ fetchTrace auth scopes 1 pages)%list = (inr err, w2) ->
  Fetch env (length pages + S fuel) apiKey w
  = Some ((wrapInt (Z.of_nat (length (filter offersBounties (concat pages)))),
           Some (wrapError "programs page request failed: " err)), w2)
  /\ written w2
     = (written w
        ++ flat_map (linesOf scopes) (filter offersBounties (concat pages)))%list.
Proof.
  intros Hcolon URLs NoCancel auth Hpages Hne Hscopes Hn Hfail.
  split.
  - rewrite (Fetch_joined env _ _ _ Hcolon). fold auth.
    rewrite (fetchPages_through_served env auth scopes URLs Hscopes NoCancel
               pages 1 0 w (S fuel));
      [|reflexivity|lia|lia|exact Hpages|exact Hne].
    rewrite (fetchPages_step env auth NoCancel), Hfail. reflexivity.
  - pose proof (retryLoop_written env 3 0 None
                  (programsURL (1 + Z.of_nat (length pages))) auth
                  (w ++ fetchTrace auth scopes 1 pages)%list) as E.
    fold (doRequestWithRetry env (programsURL (1 + Z.of_nat (length pages)))
            auth (w ++ fetchTrace auth scopes 1 pages)%list) in E.
    rewrite Hfail in E. cbn [snd] in E.
    now rewrite E, written_app, written_fetchTrace.
Qed.

Lemma Fetch_keeps_progress_on_page_failure_witness :
  exists w2,
    Fetch thirdPageDownEnv 3 "user:key" []
    = Some ((3, Some (wrapError "programs page request failed: "
                        (errorsNew "API unavailable: 503 Service Unavailable"))),
            w2)
    /\ written w2
       = [("a.example" ++ newline)%string; ("api.a.example" ++ newline)%string;
          ("b.com" ++ newline)%string].
Proof.
  eexists.
  apply (Fetch_keeps_progress_on_page_failure thirdPageDownEnv "user:key"
           threePages echoScopes 0 []).
  - cbn. tauto.
  - reflexivity.
  - reflexivity.
  - cbn. repeat split;
      (eexists; split;
       [intros w; exists 200, "200 OK"%string; split; [reflexivity|lia]
       |reflexivity]).
  - repeat constructor; discriminate.
  - intros h. exists (scopeURL h). split; [|reflexivity].
    intros w. exists 200, "200 OK"%string. split; [reflexivity|lia].
  - cbn. lia.
  - reflexivity.
Defined.

(** ** The credential normaliser: validity, fixed points, concatenation *)

Lemma rangeString_AppendRune r t :
  ValidRune r = true ->
  rangeString (AppendRune r ++ t)
  = (r, Z.to_nat (RuneLen r)) :: rangeString t.
Proof.
  intros Hv.
  pose proof (Decode_AppendRune r t Hv) as Hd.
  pose proof (AppendRune_length r Hv) as Hl.
  assert (AppendRune r ++ t <> EmptyString) as Hne.
  { pose proof (AppendRune_nonempty r). destruct (AppendRune r);
      [congruence|discriminate]. }
  rewrite (rangeString_cons _ _ _ Hne Hd). f_equal.
  now rewrite <- Hl, Nat2Z.id, skip_app.
Qed.

Lemma ValidString_joinAll l :
  Forall (fun c => ValidRune c = true) l ->
  ValidString (joinAll (map AppendRune l)) = true.
Proof.
  induction 1 as [|c l Hc Hl IH]; [reflexivity|].
  cbn [map]. rewrite joinAll_cons. unfold ValidString.
  rewrite rangeString_AppendRune by exact Hc. cbn [forallb fst snd].
  fold (ValidString (joinAll (map AppendRune l))). rewrite IH, andb_true_r.
  destruct (Z.eqb_spec c RuneError) as [->|_]; reflexivity.
Qed.

Lemma joinAll_app l1 l2 : joinAll (l1 ++ l2) = (joinAll l1 ++ joinAll l2)%string.
Proof.
  induction l1 as [|a l1 IH]; [reflexivity|].
  cbn [app]. now rewrite !joinAll_cons, IH, append_assoc.
Qed.

Lemma runes_joinAll_app l b :
  Forall (fun c => ValidRune c = true) l ->
  runes (joinAll (map AppendRune l) ++ b) = (l ++ runes b)%list.
Proof.
  induction 1 as [|c l Hc Hl IH]; [reflexivity|].
  cbn [map]. rewrite joinAll_cons, append_assoc, runes_AppendRune by exact Hc.
  now rewrite IH.
Qed.

Lemma runes_app a b :
  ValidString a = true -> runes (a ++ b) = (runes a ++ runes b)%list.
Proof.
  intros Hv. rewrite <- (ValidString_join a Hv) at 1.
  apply runes_joinAll_app, runes_valid.
Qed.

(** X9.  Whatever bytes it is given, [sanitizeKey] returns valid UTF-8. *)
Theorem sanitizeKey_is_valid_utf8 (k : string) :
  ValidString (sanitizeKey k) = true.
Proof.
  rewrite sanitizeKey_writes. apply ValidString_joinAll, filter_valid, runes_valid.
Qed.

(** X10.  The strings [sanitizeKey] leaves as they are, are exactly the
    strings that are valid UTF-8 and hold no white space code point. *)
Theorem sanitizeKey_fixed_points (k : string) :
  sanitizeKey k = k
  <-> ValidString k = true /\ forallb notSpace (runes k) = true.
Proof.
  split.
  - intros E. split.
    + rewrite <- E. rewrite sanitizeKey_writes.
      apply ValidString_joinAll, filter_valid, runes_valid.
    + rewrite <- E, runes_sanitizeKey. apply forallb_filter.
  - intros [Hv Hn]. rewrite sanitizeKey_writes, (filter_all _ _ Hn).
    now apply ValidString_join.
Qed.

(** X11.  [sanitizeKey] works piece by piece on a concatenation whose
    first part is valid UTF-8. *)
Theorem sanitizeKey_app (a b : string) :
  ValidString a = true ->
  sanitizeKey (a ++ b) = (sanitizeKey a ++ sanitizeKey b)%string.
Proof.
  intros Hv. rewrite !sanitizeKey_writes, (runes_app a b Hv).
  now rewrite filter_app, map_app, joinAll_app.
Qed.

Lemma sanitizeKey_app_witness :
  sanitizeKey ("us er" ++ " k ey") = (sanitizeKey "us er" ++ sanitizeKey " k ey")%string.
Proof. apply (sanitizeKey_app "us er" " k ey"). reflexivity. Defined.

Lemma notSpace_ascii c :
  isASCIIByte c = true -> notSpace (byteVal c) = negb (asciiSpace c).
Proof.
  unfold isASCIIByte, RuneSelf, notSpace, IsSpace, asciiSpace. intros Hc.
  apply Z.ltb_lt in Hc. pose proof (byteVal_range c) as Hr.
  rewrite (Z.mod_small (byteVal c)) by lia.
  destruct (Z.leb_spec (byteVal c) 0xFF); [|lia].
  destruct (Z.eqb_spec (byteVal c) 0x85); [lia|].
  destruct (Z.eqb_spec (byteVal c) 0xA0); [lia|].
  now rewrite !orb_false_r.
Qed.

Lemma runes_ascii c t :
  isASCIIByte c = true -> runes (String c t) = byteVal c :: runes t.
Proof.
  intros Hc. unfold isASCIIByte, RuneSelf in Hc. apply Z.ltb_lt in Hc.
  pose proof (byteVal_range c) as Hr.
  rewrite (runes_cons (String c t) (byteVal c) 1 (String_nonempty c t));
    [reflexivity|].
  unfold DecodeRuneInString. now rewrite first_1 by lia.
Qed.

(** X12.  On a string of ASCII bytes [sanitizeKey] is a filter on bytes:
    it drops the tabs, line feeds, vertical tabs, form feeds, carriage
    returns and spaces and keeps every other byte, in order. *)
Theorem sanitizeKey_ascii (k : string) :
  allBytes isASCIIByte k = true ->
  sanitizeKey k = filterBytes (fun c => negb (asciiSpace c)) k.
Proof.
  rewrite sanitizeKey_writes. unfold allBytes.
  induction k as [|c k IH]; [reflexivity|].
  cbn [list_ascii_of_string forallb filterBytes]. intros H.
  apply andb_true_iff in H as [Hc Hk].
  rewrite (runes_ascii c k Hc). cbn [filter].
  rewrite (notSpace_ascii c Hc).
  destruct (asciiSpace c); cbn [negb map]; [now apply IH|].
  rewrite joinAll_cons, (IH Hk).
  unfold isASCIIByte, RuneSelf in Hc. apply Z.ltb_lt in Hc.
  destruct (encode_decoded_1 c Hc) as (_ & _ & ->). reflexivity.
Qed.

Lemma sanitizeKey_ascii_witness :
  sanitizeKey " h1 token " = "h1token"%string.
Proof. apply (sanitizeKey_ascii " h1 token "). reflexivity. Defined.

Lemma In_joined (a b : string) (c : ascii) :
  In c (list_ascii_of_string (a ++ String c b)).
Proof.
  induction a as [|x a IH]; cbn [append list_ascii_of_string In]; [now left|].
  now right.
Qed.

(** X13.  The credential string [main] builds for HackerOne, the
    sanitised username, a colon and the sanitised key, is never one that
    [Fetch] rejects: it has its colon, it is valid UTF-8 free of white
    space, and [Fetch] goes to the pages with the base64 encoding of that
    very string as token. *)
Theorem Fetch_accepts_sanitized_credentials (env : Env) (fuel : nat)
    (user key : string) (w : World) :
  let credentials := (sanitizeKey user ++ ":" ++ sanitizeKey key)%string in
  ValidString credentials = true
  /\ forallb notSpace (runes credentials) = true
  /\ Fetch env fuel credentials w
     = fetchPages env fuel (base64Encode env credentials) 1 0 w.
Proof.
  intros credentials.
  assert (credentials
          = joinAll (map AppendRune
                       (filter notSpace (runes user)
                          ++ 58 :: filter notSpace (runes key)))) as E.
  { unfold credentials. rewrite !sanitizeKey_writes, map_app, joinAll_app.
    reflexivity. }
  assert (Forall (fun c => ValidRune c = true)
                 (filter notSpace (runes user)
                    ++ 58 :: filter notSpace (runes key))) as Hv.
  { apply Forall_app. split; [apply filter_valid, runes_valid|].
    constructor; [reflexivity|apply filter_valid, runes_valid]. }
  split; [rewrite E; now apply ValidString_joinAll|]. split.
  - rewrite E, runes_joinAll by exact Hv.
    rewrite forallb_app, forallb_filter. cbn [forallb andb].
    change (notSpace 58) with true. apply forallb_filter.
  - apply Fetch_joined. apply In_joined.
Qed.

(** ** The run coordinator *)

Lemma asciiSpace_ascii c : asciiSpace c = true -> isASCIIByte c = true.
Proof.
  unfold asciiSpace, isASCIIByte, RuneSelf. intros H. apply Z.ltb_lt.
  apply orb_true_iff in H as [H|H].
  - apply andb_true_iff in H as [_ H]. apply Z.leb_le in H. lia.
  - apply Z.eqb_eq in H. lia.
Qed.

Lemma trimSpaceStart_spaces l s :
  allBytes asciiSpace l = true -> trimSpaceStart (l ++ s) = trimSpaceStart s.
Proof.
  unfold allBytes. induction l as [|c l IH]; [reflexivity|].
  cbn [list_ascii_of_string forallb append trimSpaceStart]. intros H.
  apply andb_true_iff in H as [Hc Hl].
  pose proof (asciiSpace_ascii c Hc) as Ha. unfold isASCIIByte in Ha.
  apply Z.ltb_lt in Ha. destruct (Z.leb_spec RuneSelf (byteVal c)); [lia|].
  rewrite Hc. now apply IH.
Qed.

Lemma trimSpaceStart_all_spaces r :
  allBytes asciiSpace r = true -> trimSpaceStart r = inl EmptyString.
Proof.
  unfold allBytes. induction r as [|c r IH]; [reflexivity|].
  cbn [list_ascii_of_string forallb trimSpaceStart]. intros H.
  apply andb_true_iff in H as [Hc Hr].
  pose proof (asciiSpace_ascii c Hc) as Ha. unfold isASCIIByte in Ha.
  apply Z.ltb_lt in Ha. destruct (Z.leb_spec RuneSelf (byteVal c)); [lia|].
  rewrite Hc. now apply IH.
Qed.

Lemma trimSpaceStop_all_spaces r :
  allBytes asciiSpace r = true -> trimSpaceStop r = inl EmptyString.
Proof.
  unfold allBytes. induction r as [|c r IH]; [reflexivity|].
  cbn [list_ascii_of_string forallb trimSpaceStop]. intros H.
  apply andb_true_iff in H as [Hc Hr]. rewrite (IH Hr).
  pose proof (asciiSpace_ascii c Hc) as Ha. unfold isASCIIByte in Ha.
  apply Z.ltb_lt in Ha. destruct (Z.leb_spec RuneSelf (byteVal c)); [lia|].
  now rewrite Hc.
Qed.

Lemma trimSpaceStop_name name r :
  allBytes (fun c => isASCIIByte c && negb (asciiSpace c)) name = true ->
  allBytes asciiSpace r = true ->
  trimSpaceStop (name ++ r) = inl name.
Proof.
  intros Hn Hr. unfold allBytes in Hn.
  induction name as [|c name IH]; [now apply trimSpaceStop_all_spaces|].
  cbn [list_ascii_of_string forallb] in Hn.
  apply andb_true_iff in Hn as [Hc Hn]. apply andb_true_iff in Hc as [Ha Hs].
  cbn [append trimSpaceStop]. rewrite (IH Hn).
  destruct name as [|c' name']; [|reflexivity].
  unfold isASCIIByte in Ha. apply Z.ltb_lt in Ha.
  destruct (Z.leb_spec RuneSelf (byteVal c)); [lia|].
  apply negb_true_iff in Hs. now rewrite Hs.
Qed.

Lemma TrimSpace_padded host l name r :
  allBytes asciiSpace l = true ->
  allBytes (fun c => isASCIIByte c && negb (asciiSpace c)) name = true ->
  allBytes asciiSpace r = true ->
  TrimSpace host (l ++ name ++ r) = name.
Proof.
  intros Hl Hn Hr. unfold TrimSpace. rewrite (trimSpaceStart_spaces l _ Hl).
  destruct name as [|c name].
  - cbn [append]. rewrite (trimSpaceStart_all_spaces r Hr). reflexivity.
  - pose proof Hn as Hn'. unfold allBytes in Hn'.
    cbn [list_ascii_of_string forallb] in Hn'.
    apply andb_true_iff in Hn' as [Hc _]. apply andb_true_iff in Hc as [Ha Hs].
    cbn [append trimSpaceStart].
    unfold isASCIIByte in Ha. apply Z.ltb_lt in Ha.
    destruct (Z.leb_spec RuneSelf (byteVal c)); [lia|].
    apply negb_true_iff in Hs. rewrite Hs.
    change (String c (name ++ r)) with (String c name ++ r)%string.
    now rewrite (trimSpaceStop_name (String c name) r Hn Hr).
Qed.

Lemma mapBytes_lower_id s :
  existsb isUpperByte (list_ascii_of_string s) = false ->
  mapBytes lowerByte s = s.
Proof.
  induction s as [|c s IH]; [reflexivity|].
  cbn [list_ascii_of_string existsb mapBytes]. intros H.
  apply orb_false_iff in H as [Hc Hs]. rewrite (IH Hs).
  unfold lowerByte. now rewrite Hc.
Qed.

Lemma ToLower_ascii host s :
  allBytes isASCIIByte s = true -> ToLower host s = mapBytes lowerByte s.
Proof.
  intros H. unfold ToLower. unfold allBytes, isASCIIByte in H.
  cbv zeta. rewrite H.
  destruct (existsb isUpperByte (list_ascii_of_string s)) eqn:E; [reflexivity|].
  symmetry. now apply mapBytes_lower_id.
Qed.

Lemma allBytes_weaken (p q : ascii -> bool) s :
  (forall c, p c = true -> q c = true) ->
  allBytes p s = true -> allBytes q s = true.
Proof.
  intros Hpq. unfold allBytes. rewrite !forallb_forall. auto.
Qed.

(** X14.  The items of the program flag are matched without regard to
    ASCII case nor to ASCII white space around them: an item made of a
    name of ASCII bytes other than white space, with ASCII white space
    before and after, is looked up as the name with its letters A to Z
    in lower case. *)
Theorem platformOf_padded_name (host : Host) (l name r : string) :
  allBytes asciiSpace l = true ->
  allBytes (fun c => isASCIIByte c && negb (asciiSpace c)) name = true ->
  allBytes asciiSpace r = true ->
  platformOf host (l ++ name ++ r) = mapBytes lowerByte name.
Proof.
  intros Hl Hn Hr. unfold platformOf.
  rewrite (TrimSpace_padded host l name r Hl Hn Hr).
  apply ToLower_ascii. revert Hn. apply allBytes_weaken.
  intros c H. now apply andb_true_iff in H as [H _].
Qed.

Lemma platformOf_padded_name_witness :
  platformOf stubHost ("  " ++ "HackerOne" ++ " ") = "hackerone"%string.
Proof.
  apply (platformOf_padded_name stubHost "  " "HackerOne" " "); reflexivity.
Defined.

Section Coordinator.

Variable host : Host.
Variable env : Env.

Lemma rangePlatforms_unknown fuel cu ck item rest total w :
  fetchers (platformOf host item) = None ->
  rangePlatforms host env fuel cu ck (item :: rest) total w
  = rangePlatforms host env fuel cu ck rest total
      (w ++ [EvLog ("programa desconocido: " ++ platformOf host item)])%list.
Proof.
  intros H. cbn [rangePlatforms]. unfold platformOf in *. cbv zeta.
  now rewrite H.
Qed.

Lemma rangePlatforms_known fuel cu ck item rest total w fetcher :
  fetchers (platformOf host item) = Some fetcher ->
  rangePlatforms host env fuel cu ck (item :: rest) total w
  = match FetchOf env fetcher fuel
            (if String.eqb (platformOf host item) "hackerone"
             then (cu ++ ":" ++ ck)%string else ck) w with
    | None => None
    | Some ((cnt, Some err), w1) =>
        Some (inr tt, (w1 ++ [EvLog ("ERROR: " ++ Error err)])%list)
    | Some ((cnt, None), w1) =>
        rangePlatforms host env fuel cu ck rest (wrapInt (total + cnt)) w1
    end.
Proof.
  intros H. cbn [rangePlatforms]. unfold platformOf in *. cbv zeta.
  now rewrite H.
Qed.

Lemma rangePlatforms_app fuel cu ck before after total w :
  rangePlatforms host env fuel cu ck (before ++ after) total w
  = match rangePlatforms host env fuel cu ck before total w with
    | Some (inl t, w1) => rangePlatforms host env fuel cu ck after t w1
    | other => other
    end.
Proof.
  revert total w. induction before as [|item before IH]; intros total w;
    [reflexivity|].
  cbn [app]. destruct (fetchers (platformOf host item)) as [fetcher|] eqn:E.
  - rewrite !(rangePlatforms_known _ _ _ _ _ _ _ fetcher E).
    destruct (FetchOf env fetcher fuel _ w) as [[[cnt [err|]] w1]|];
      [reflexivity|apply IH|reflexivity].
  - rewrite !(rangePlatforms_unknown _ _ _ _ _ _ _ E). apply IH.
Qed.

Lemma rangePlatforms_all_unknown fuel cu ck items total w :
  Forall (fun item => fetchers (platformOf host item) = None) items ->
  rangePlatforms host env fuel cu ck items total w
  = Some (inl total,
          (w ++ map (fun item => EvLog ("programa desconocido: "
                                        ++ platformOf host item)) items)%list).
Proof.
  intros H. revert w. induction H as [|item items Hi _ IH]; intros w.
  - cbn [rangePlatforms map]. now rewrite app_nil_r.
  - rewrite (rangePlatforms_unknown _ _ _ _ _ _ _ Hi), IH, <- app_assoc.
    reflexivity.
Qed.

Lemma main_checked fuel flags w :
  apiKey flags <> EmptyString -> username flags <> EmptyString ->
  openFile host (outputFile flags) = None ->
  main host env fuel flags w
  = match rangePlatforms host env fuel (sanitizeKey (username flags))
            (sanitizeKey (apiKey flags)) (Split (programFlag flags) ",") 0 w with
    | None => None
    | Some (inr _, w1) => Some (Fatal, w1)
    | Some (inl total, w1) =>
        Some (Returned,
              (w1 ++ [EvPrint ("Total de programas procesados: "
                               ++ itoa total ++ newline)])%list)
    end.
Proof.
  intros Hk Hu Ho. unfold main.
  destruct (String.eqb_spec (apiKey flags) EmptyString); [contradiction|].
  destruct (String.eqb_spec (username flags) EmptyString); [contradiction|].
  now rewrite Ho.
Qed.

(** X15.  Names [main] does not know are reported and passed over, they
    are no error: when no item of the program flag is a known platform,
    [main] logs one line for each item, in order, makes no request,
    prints a total of 0 and returns. *)
Theorem main_skips_unknown_platforms (fuel : nat) (flags : Flags) (w : World) :
  apiKey flags <> EmptyString -> username flags <> EmptyString ->
  openFile host (outputFile flags) = None ->
  Forall (fun item => fetchers (platformOf host item) = None)
         (Split (programFlag flags) ",") ->
  main host env fuel flags w
  = Some (Returned,
          (w ++ map (fun item => EvLog ("programa desconocido: "
                                        ++ platformOf host item))
                    (Split (programFlag flags) ",")
             ++ [EvPrint ("Total de programas procesados: 0" ++ newline)])%list).
Proof.
  intros Hk Hu Ho Hall.
  rewrite (main_checked fuel flags w Hk Hu Ho).
  rewrite (rangePlatforms_all_unknown _ _ _ _ _ _ Hall), <- app_assoc.
  reflexivity.
Qed.

(** X16.  Naming a platform that is not implemented ends the run: when
    the first known platform of the program flag is intigriti or
    bugcrowd, [main] logs the error of the placeholder fetcher and exits
    through [log.Fatalf], without a request for that platform; the items
    after it are not looked at. *)
Theorem main_not_implemented_is_fatal (fuel : nat) (flags : Flags) (w : World)
    (skipped : list string) (item : string) (rest : list string) :
  apiKey flags <> EmptyString -> username flags <> EmptyString ->
  openFile host (outputFile flags) = None ->
  Split (programFlag flags) "," = (skipped ++ item :: rest)%list ->
  Forall (fun item => fetchers (platformOf host item) = None) skipped ->
  platformOf host item = "intigriti"%string
  \/ platformOf host item = "bugcrowd"%string ->
  main host env fuel flags w
  = Some (Fatal,
          (w ++ map (fun item => EvLog ("programa desconocido: "
                                        ++ platformOf host item)) skipped
             ++ [EvLog ("ERROR: fetcher para "
                        ++ (if String.eqb (platformOf host item) "intigriti"
                            then "Intigriti" else "Bugcrowd")
                        ++ " aún no implementado")])%list).
Proof.
  intros Hk Hu Ho Hs Hskip Hitem.
  rewrite (main_checked fuel flags w Hk Hu Ho), Hs, rangePlatforms_app.
  rewrite (rangePlatforms_all_unknown _ _ _ _ _ _ Hskip).
  destruct Hitem as [E|E].
  - rewrite (rangePlatforms_known _ _ _ _ _ _ _ (notImplementedFetcher "Intigriti"))
      by now rewrite E.
    rewrite E. cbn [FetchOf String.eqb]. now rewrite <- app_assoc.
  - rewrite (rangePlatforms_known _ _ _ _ _ _ _ (notImplementedFetcher "Bugcrowd"))
      by now rewrite E.
    rewrite E. cbn [FetchOf]. now rewrite <- app_assoc.
Qed.

(** X17.  [main] stops at the first fetcher that fails: when the items
    [before] have been run and the fetcher of the next item returns an
    error, [main] logs "ERROR: " and the error and exits through
    [log.Fatalf]; the items [after] are not run and no total is
    printed. *)
Theorem main_stops_at_first_error (fuel : nat) (flags : Flags) (w : World)
    (before : list string) (item : string) (after : list string)
    (total : Z) (w1 : World) (fetcher : ProgramFetcher) (cnt : Z) (err : error)
    (w2 : World) :
  apiKey flags <> EmptyString -> username flags <> EmptyString ->
  openFile host (outputFile flags) = None ->
  Split (programFlag flags) "," = (before ++ item :: after)%list ->
  let cleanUsername := sanitizeKey (username flags) in
  let cleanKey := sanitizeKey (apiKey flags) in
  rangePlatforms host env fuel cleanUsername cleanKey before 0 w
  = Some (inl total, w1) ->
  fetchers (platformOf host item) = Some fetcher ->
  FetchOf env fetcher fuel
    (if String.eqb (platformOf host item) "hackerone"
     then (cleanUsername ++ ":" ++ cleanKey)%string else cleanKey) w1
  = Some ((cnt, Some err), w2) ->
  main host env fuel flags w
  = Some (Fatal, (w2 ++ [EvLog ("ERROR: " ++ Error err)])%list).
Proof.
  intros Hk Hu Ho Hs cu ck Hbefore Hf Hfetch.
  rewrite (main_checked fuel flags w Hk Hu Ho), Hs, rangePlatforms_app.
  fold cu ck. rewrite Hbefore.
  rewrite (rangePlatforms_known _ _ _ _ _ _ _ fetcher Hf), Hfetch. reflexivity.
Qed.

End Coordinator.

Lemma main_skips_unknown_platforms_witness :
  main stubHost echoEnv 0 (flagsFor "foo, Bar") []
  = Some (Returned,
          [EvLog "programa desconocido: foo"; EvLog "programa desconocido: bar";
           EvPrint ("Total de programas procesados: 0" ++ newline)]).
Proof.
  apply (main_skips_unknown_platforms stubHost echoEnv 0 (flagsFor "foo, Bar") []);
    try discriminate; try reflexivity.
  repeat constructor.
Defined.

Lemma main_not_implemented_is_fatal_witness :
  main stubHost echoEnv 0 (flagsFor "foo,Intigriti,hackerone") []
  = Some (Fatal,
          [EvLog "programa desconocido: foo";
           EvLog "ERROR: fetcher para Intigriti aún no implementado"]).
Proof.
  apply (main_not_implemented_is_fatal stubHost echoEnv 0
           (flagsFor "foo,Intigriti,hackerone") [] ["foo"%string] "Intigriti"
           ["hackerone"%string]);
    try discriminate; try reflexivity.
  - repeat constructor.
  - now left.
Defined.

Lemma main_stops_at_first_error_witness :
  exists w2,
    main stubHost notFoundEnv 1 (flagsFor "hackerone,foo") []
    = Some (Fatal,
            (w2 ++ [EvLog "ERROR: handle c failed: API returned error 404 Not Found"])%list)
    /\ written w2 = [("a.example" ++ newline)%string;
                     ("api.a.example" ++ newline)%string].
Proof.
  eexists. split.
  - apply (main_stops_at_first_error stubHost notFoundEnv 1
             (flagsFor "hackerone,foo") [] [] "hackerone" ["foo"%string] 0 []
             hackerOneFetcher 1
             (wrapError "handle c failed: "
                (errorsNew "API returned error 404 Not Found")));
      try discriminate; reflexivity.
  - reflexivity.
Defined.

Section Totals.

Variable host : Host.
Variable env : Env.
Variable scopes : string -> list hackerOneScopePage.row.
Variable pages : list (list hackerOneProgramsPage.row).
Variables cleanUsername cleanKey : string.

Let auth : string := base64Encode env (cleanUsername ++ ":" ++ cleanKey).

Hypothesis URLs : forall url, newRequestErr env url = None.
Hypothesis NoCancel : forall w, ctxErr env w = None.
Hypothesis Hpages : PagesServed env auth 1 (pages ++ [[]]).
Hypothesis Hne : Forall (fun data => data <> []) pages.
Hypothesis Hscopes : ScopesServed env auth scopes.
Hypothesis Hn : Z.of_nat (length pages) + 1 < 2 ^ 63.

(** Each item that names hackerone runs the whole enumeration again. *)
Lemma rangePlatforms_hackerone items extra total w :
  wrapInt total = total ->
  Forall (fun item => platformOf host item = "hackerone"%string) items ->
  rangePlatforms host env (S (length pages) + extra) cleanUsername cleanKey
    items total w
  = Some (inl (wrapInt
                 (total + Z.of_nat (length items)
                          * Z.of_nat (length (filter offersBounties
                                                     (concat pages))))),
          (w ++ concat (repeat (fetchTrace auth scopes 1 (pages ++ [[]]))
                               (length items)))%list).
Proof.
  intros Ht Hall. revert total w Ht.
  induction Hall as [|item items Hi _ IH]; intros total w Ht.
  - cbn [rangePlatforms length repeat concat].
    now rewrite Z.mul_0_l, Z.add_0_r, Ht, app_nil_r.
  - rewrite (rangePlatforms_known host env _ _ _ _ _ _ _ hackerOneFetcher)
      by now rewrite Hi.
    rewrite Hi. cbn [FetchOf String.eqb Ascii.eqb Bool.eqb].
    rewrite Fetch_joined by apply In_joined. fold auth.
    rewrite (fetchPages_served env auth scopes URLs Hscopes NoCancel pages 1 0 w
               extra); [|reflexivity|lia|lia|exact Hpages|exact Hne].
    rewrite IH by apply wrapInt_add_idem.
    f_equal. f_equal.
    + f_equal. rewrite Z.add_0_l, wrapInt_add.
      set (n := Z.of_nat (length (filter offersBounties (concat pages)))).
      replace (total + wrapInt n + Z.of_nat (length items) * n)
        with (wrapInt n + (total + Z.of_nat (length items) * n)) by lia.
      rewrite wrapInt_add. f_equal. cbn [length]. lia.
    + cbn [length repeat concat]. now rewrite <- app_assoc.
Qed.

End Totals.

(** X18.  A run for HackerOne alone ends with the total of the programs
    processed, and a platform named twice is enumerated twice: when all
    the m items of the program flag name hackerone and every request is
    served, [main] runs the fetcher m times with the credentials
    username, colon, key (both sanitised), so that the sink receives the
    lines of the enumeration m times over, prints m times the number of
    programs with bounties as total, and returns. *)
Theorem main_totals_every_hackerone_item (host : Host) (env : Env)
    (flags : Flags) (pages : list (list hackerOneProgramsPage.row))
    (scopes : string -> list hackerOneScopePage.row) (extra : nat) (w : World) :
  apiKey flags <> EmptyString -> username flags <> EmptyString ->
  openFile host (outputFile flags) = None ->
  let items := Split (programFlag flags) "," in
  let auth := base64Encode env (sanitizeKey (username flags) ++ ":"
                                ++ sanitizeKey (apiKey flags)) in
  Forall (fun item => platformOf host item = "hackerone"%string) items ->
  (forall url, newRequestErr env url = None) ->
  (forall w0, ctxErr env w0 = None) ->
  PagesServed env auth 1 (pages ++ [[]]) ->
  Forall (fun data => data <> []) pages ->
  ScopesServed env auth scopes ->
  Z.of_nat (length pages) + 1 < 2 ^ 63 ->
  let bounty := filter offersBounties (concat pages) in
  exists w',
    main host env (S (length pages) + extra) flags w
    = Some (Returned,
            (w' ++ [EvPrint ("Total de programas procesados: "
                             ++ itoa (wrapInt (Z.of_nat (length items)
                                               * Z.of_nat (length bounty)))
                             ++ newline)])%list)
    /\ written w'
       = (written w
          ++ concat (repeat (flat_map (linesOf scopes) bounty)
                            (length items)))%list.
Proof.
  intros Hk Hu Ho items auth Hall URLs NoCancel Hpages Hne Hscopes Hn bounty.
  rewrite (main_checked host env _ flags w Hk Hu Ho). fold items.
  rewrite (rangePlatforms_hackerone host env scopes pages _ _ URLs NoCancel
             Hpages Hne Hscopes Hn items extra 0 w eq_refl Hall).
  rewrite Z.add_0_l. eexists. split; [reflexivity|].
  rewrite written_app. f_equal.
  fold auth. fold bounty. clear.
  induction (length items) as [|m IH]; [reflexivity|].
  cbn [repeat concat]. rewrite written_app, IH, written_fetchTrace, concat_app.
  cbn [concat]. now rewrite !app_nil_r.
Qed.

Lemma main_totals_every_hackerone_item_witness :
  exists w',
    main stubHost echoEnv 3 (flagsFor "hackerone, HackerOne") []
    = Some (Returned,
            (w' ++ [EvPrint ("Total de programas procesados: 6" ++ newline)])%list)
    /\ written w'
       = [("a.example" ++ newline)%string; ("api.a.example" ++ newline)%string;
          ("b.com" ++ newline)%string;
          ("a.example" ++ newline)%string; ("api.a.example" ++ newline)%string;
          ("b.com" ++ newline)%string].
Proof.
  apply (main_totals_every_hackerone_item stubHost echoEnv
           (flagsFor "hackerone, HackerOne") threePages echoScopes 0 []);
    try discriminate; try reflexivity.
  all: try apply echoEnv_pages; try apply echoEnv_scopes.
  all: try (cbn; lia).
  all: repeat constructor; discriminate.
Defined.

Lemma sanitizeKey_spaces (k : string) :
  allBytes asciiSpace k = true -> sanitizeKey k = EmptyString.
Proof.
  rewrite sanitizeKey_writes. unfold allBytes.
  induction k as [|c k IH]; [reflexivity|].
  cbn [list_ascii_of_string forallb]. intros H.
  apply andb_true_iff in H as [Hc Hk].
  pose proof (asciiSpace_ascii c Hc) as Ha.
  rewrite (runes_ascii c k Ha). cbn [filter].
  rewrite (notSpace_ascii c Ha), Hc. cbn [negb]. now apply IH.
Qed.

(** X19.  [main] tests the key for emptiness before it sanitises it, so
    a key made of white space only passes the test and is then
    sanitised to the empty string: for hackerone, [main] runs the
    fetcher with the credentials "username:" and an empty key, and ends
    as that run ends. *)
Theorem main_whitespace_key_passes_check (host : Host) (env : Env) (fuel : nat)
    (flags : Flags) (item : string) (w : World) :
  apiKey flags <> EmptyString ->
  allBytes asciiSpace (apiKey flags) = true ->
  username flags <> EmptyString ->
  openFile host (outputFile flags) = None ->
  Split (programFlag flags) "," = [item] ->
  platformOf host item = "hackerone"%string ->
  sanitizeKey (apiKey flags) = EmptyString
  /\ main host env fuel flags w
     = match Fetch env fuel (sanitizeKey (username flags) ++ ":") w with
       | None => None
       | Some ((cnt, Some err), w1) =>
           Some (Fatal, (w1 ++ [EvLog ("ERROR: " ++ Error err)])%list)
       | Some ((cnt, None), w1) =>
           Some (Returned,
                 (w1 ++ [EvPrint ("Total de programas procesados: "
                                  ++ itoa (wrapInt cnt) ++ newline)])%list)
       end.
Proof.
  intros Hk Hspace Hu Ho Hs Hitem.
  pose proof (sanitizeKey_spaces _ Hspace) as E.
  split; [exact E|].
  rewrite (main_checked host env fuel flags w Hk Hu Ho), Hs, E.
  rewrite (rangePlatforms_known host env _ _ _ _ _ _ _ hackerOneFetcher)
    by now rewrite Hitem.
  rewrite Hitem. cbn [FetchOf String.eqb Ascii.eqb Bool.eqb].
  change (":" ++ EmptyString)%string with ":"%string.
  destruct (Fetch env fuel (sanitizeKey (username flags) ++ ":") w)
    as [[[cnt [err|]] w1]|]; reflexivity.
Qed.

Lemma main_whitespace_key_passes_check_witness :
  sanitizeKey "  " = EmptyString
  /\ main stubHost cancelledEnv 1
       (mkFlags "hackerone" "user" "  " "programasguardado.txt" (30 * second)) []
     = Some (Fatal, [EvLog "ERROR: context canceled"]).
Proof.
  apply (main_whitespace_key_passes_check stubHost cancelledEnv 1
           (mkFlags "hackerone" "user" "  " "programasguardado.txt" (30 * second))
           "hackerone" []);
    try discriminate; reflexivity.
Defined.

